(** * WDPA quality-assurance checks (wdpa/qa.py): a shallow embedding

    The checks of [qa.py] are functions from a pandas DataFrame (and a
    [return_pid] flag) to either a boolean or an array of WDPA_PID values.
    The embedding keeps that shape:

    - a cell holds a Python object: [None], a float (NaN included) or a
      string;
    - a DataFrame is column-major, a list of named columns over a common
      index, as pandas stores it;
    - floating-point numbers are IEEE-754 binary64, the kernel's primitive
      floats, so that comparisons with NaN and divisions by zero behave as
      they do in numpy;
    - a check runs in a state-and-exception monad whose state is the
      DataFrame object the caller passed in: [getitem] reads a column,
      [setitem] is the in-place column assignment [wdpa_df[name] = ...],
      and a Python exception is a [Raise]. *)

From Stdlib Require Import Floats ZArith List String Ascii Bool Lia Arith.
From Stdlib Require Import Uint63 DecimalString DecimalNat.
Import ListNotations.

Set Warnings "-inexact-float".
Local Open Scope bool_scope.
Local Open Scope list_scope.
Local Open Scope string_scope.

(** ** Python values and exceptions *)

Inductive pyobj : Type :=
| PyNone
| PyFloat (x : float)
| PyStr (s : string).

Inductive exn : Type :=
| KeyError
| TypeError
| AttributeError
| ValueError
| Exception.

Inductive result (A : Type) : Type :=
| Ok (a : A)
| Raise (e : exn).

Arguments Ok {A} a.
Arguments Raise {A} e.

Definition rbind {A B : Type} (r : result A) (k : A -> result B) : result B :=
  match r with
  | Ok a => k a
  | Raise e => Raise e
  end.

Fixpoint mapM {A B : Type} (f : A -> result B) (l : list A) : result (list B) :=
  match l with
  | [] => Ok []
  | x :: xs =>
      rbind (f x) (fun y => rbind (mapM f xs) (fun ys => Ok (y :: ys)))
  end.

(** ** Series: one column *)

Definition Series : Type := list pyobj.

(** [pd.isna]: [None] and NaN are the missing values. *)
Definition isna (v : pyobj) : bool :=
  match v with
  | PyNone => true
  | PyFloat x => is_nan x
  | PyStr _ => false
  end.

(** Identity of values as pandas' hash tables see it ([isin], [duplicated],
    [unique]): NaN matches NaN and [None] matches [None]. *)
Definition py_same (a b : pyobj) : bool :=
  match a, b with
  | PyNone, PyNone => true
  | PyFloat x, PyFloat y => (x =? y)%float || (is_nan x && is_nan y)
  | PyStr s, PyStr t => String.eqb s t
  | _, _ => false
  end.

(** Python's [==] on two non-missing objects. *)
Definition py_eq (a b : pyobj) : bool :=
  match a, b with
  | PyNone, PyNone => true
  | PyFloat x, PyFloat y => (x =? y)%float
  | PyStr s, PyStr t => String.eqb s t
  | _, _ => false
  end.

(** Element-wise [==] and [!=] of two columns: a missing value on either
    side compares unequal. *)
Definition cmp_eq (a b : pyobj) : bool :=
  if isna a || isna b then false else py_eq a b.

Definition cmp_ne (a b : pyobj) : bool :=
  if isna a || isna b then true else negb (py_eq a b).

Definition mem (v : pyobj) (values : list pyobj) : bool :=
  existsb (py_same v) values.

(** [Series.isin(values)] *)
Definition isin (s : Series) (values : list pyobj) : list bool :=
  map (fun v => mem v values) s.

(** [Series.duplicated()], keep='first': a row is marked when its value
    occurred in an earlier row. *)
Fixpoint duplicated_from (seen : list pyobj) (s : Series) : list bool :=
  match s with
  | [] => []
  | v :: rest => mem v seen :: duplicated_from (v :: seen) rest
  end.

Definition duplicated (s : Series) : list bool := duplicated_from [] s.

(** [Series.unique()]: the distinct values in order of first appearance. *)
Fixpoint unique_from (seen : list pyobj) (s : Series) : Series :=
  match s with
  | [] => []
  | v :: rest =>
      if mem v seen then unique_from seen rest
      else v :: unique_from (v :: seen) rest
  end.

Definition unique (s : Series) : Series := unique_from [] s.

Definition dropna_values (s : Series) : Series :=
  filter (fun v => negb (isna v)) s.

(** [Series.nunique()], dropna=True: the number of distinct non-missing
    values. *)
Definition nunique (s : Series) : nat := List.length (unique (dropna_values s)).

(** Boolean indexing of a sequence by a mask of the same length. *)
Fixpoint select {A : Type} (mask : list bool) (l : list A) : list A :=
  match mask, l with
  | b :: mask', x :: l' => if b then x :: select mask' l' else select mask' l'
  | _, _ => []
  end.

Fixpoint map2 {A B C : Type} (f : A -> B -> C) (l1 : list A) (l2 : list B) : list C :=
  match l1, l2 with
  | x :: l1', y :: l2' => f x y :: map2 f l1' l2'
  | _, _ => []
  end.

(** [a & b] and [~a] on boolean columns. *)
Definition mask_and (a b : list bool) : list bool := map2 andb a b.
Definition mask_not (a : list bool) : list bool := map negb a.

(** Python's comparison of one cell with a number, as the function of
    [apply] does it on a row: a cell that is [None] or a text raises
    TypeError. *)
Definition as_float (v : pyobj) : result float :=
  match v with
  | PyFloat x => Ok x
  | _ => Raise TypeError
  end.

Definition of_float64 (l : list float) : Series := map PyFloat l.

(** Arithmetic on the cells of two columns.  On two numbers it is the
    floating-point operation, of which a NaN operand makes NaN.  On a
    column of objects pandas operates where both cells are present and
    gives NaN where one is missing; a text that meets a cell that is
    present raises TypeError. *)
Definition arith (op : float -> float -> float) (a b : pyobj) : result float :=
  match a, b with
  | PyFloat x, PyFloat y => Ok (op x y)
  | _, _ => if isna a || isna b then Ok nan else Raise TypeError
  end.

(** An ordering comparison on the cells of two columns: False where a
    cell is missing, TypeError for a text that meets a cell that is
    present. *)
Definition compare (cmp : float -> float -> bool) (a b : pyobj) : result bool :=
  match a, b with
  | PyFloat x, PyFloat y => Ok (cmp x y)
  | _, _ => if isna a || isna b then Ok false else Raise TypeError
  end.

(** The dtype pandas gives a column when the frame is built: float64 when
    the column has cells and they are all numbers (NaN included); a
    column with a text or a [None] in it, and a column of no rows, holds
    objects. *)
Definition is_float (v : pyobj) : bool :=
  match v with
  | PyFloat _ => true
  | _ => false
  end.

Definition float64 (s : Series) : bool :=
  match s with
  | [] => false
  | _ :: _ => forallb is_float s
  end.

(** [df.groupby(key)[field].nunique()]: one entry per distinct non-missing
    key, with the number of distinct non-missing values of the field among
    the rows of that key. *)
Definition groupby_nunique (keys vals : Series) : list (pyobj * nat) :=
  map (fun k => (k, nunique (select (map (py_same k) keys) vals)))
      (unique (dropna_values keys)).

(** ** Reductions of a float column *)

Definition float_of_nat (n : nat) : float := of_uint63 (Uint63.of_Z (Z.of_nat n)).

Definition notnan (x : float) : bool := negb (is_nan x).

(** [res += a[i]] for every [i], in order. *)
Definition sum_in_order (res : float) (a : list float) : float :=
  fold_left PrimFloat.add a res.

(** The 8 running sums of numpy's unrolled loop, [r[k] += a[i + k]], over
    [groups] further groups of 8 numbers; what is left of the array comes
    back with them. *)
Fixpoint unrolled (groups : nat) (r a : list float) : list float * list float :=
  match groups with
  | O => (r, a)
  | S groups' => unrolled groups' (map2 PrimFloat.add r (firstn 8 a)) (skipn 8 a)
  end.

(** [((r[0] + r[1]) + (r[2] + r[3])) + ((r[4] + r[5]) + (r[6] + r[7]))] *)
Definition in_pairs (r : list float) : float :=
  match r with
  | [r0; r1; r2; r3; r4; r5; r6; r7] =>
      (((r0 + r1) + (r2 + r3)) + ((r4 + r5) + (r6 + r7)))%float
  | _ => 0%float
  end.

Definition PW_BLOCKSIZE : nat := 128.

(** numpy's [pairwise_sum], the summation under [ndarray.sum] of a
    float64 array.  Fewer than 8 numbers are added from left to right.
    Up to [PW_BLOCKSIZE] numbers go into 8 running sums, number [i] into
    sum [i mod 8]; the sums are added in pairs and the numbers after the
    last full group of 8 are added one by one.  A longer array is cut in
    two near the middle, at a multiple of 8, and the sums of the halves
    are added.  [depth] bounds the cuts: the length of the array is
    enough ([pairwise_sum_rec_depth]). *)
Fixpoint pairwise_sum_rec (depth : nat) (a : list float) : float :=
  let n := List.length a in
  if (n <? 8)%nat then sum_in_order 0 a
  else if (n <=? PW_BLOCKSIZE)%nat then
    let (r, rest) := unrolled (n / 8 - 1) (firstn 8 a) (skipn 8 a) in
    sum_in_order (in_pairs r) rest
  else
    match depth with
    | O => 0%float
    | S depth' =>
        let n2 := (n / 2)%nat in
        let n2 := (n2 - n2 mod 8)%nat in
        (pairwise_sum_rec depth' (firstn n2 a)
         + pairwise_sum_rec depth' (skipn n2 a))%float
    end.

Definition pairwise_sum (a : list float) : float :=
  pairwise_sum_rec (List.length a) a.

(** [ndarray.sum()]: the reduction starts from the identity of the
    addition and adds the pairwise sum of the array to it. *)
Definition np_sum (a : list float) : float := (0 + pairwise_sum a)%float.

(** The number of values that are not NaN, and the column with 0 in place
    of each NaN: pandas sums the whole column so filled. *)
Definition count_notnan (l : list float) : nat := List.length (filter notnan l).

Definition fill_nan (l : list float) : list float :=
  map (fun x => if is_nan x then 0%float else x) l.

(** [Series.mean()], skipna=True, as pandas' own reduction computes it:
    the sum of the column with its NaN filled by 0, over the number of
    values that are not NaN; NaN when there is none. *)
Definition Series_mean (l : list float) : float :=
  let count := count_notnan l in
  let the_sum := np_sum (fill_nan l) in
  if (0 <? count)%nat then (the_sum / float_of_nat count)%float else nan.

(** [Series.std()], skipna=True, ddof=1, as pandas' own reduction computes
    it: the square root of the two-pass variance, the sum of the squared
    differences to the average (0 where the column has NaN) over
    [count - 1]; NaN when fewer than two values are not NaN. *)
Definition Series_std (l : list float) : float :=
  let ddof := 1 in
  let values := fill_nan l in
  let count := if (count_notnan l <=? ddof)%nat then nan
               else float_of_nat (count_notnan l) in
  let d := if (count_notnan l <=? ddof)%nat then nan
           else (float_of_nat (count_notnan l) - float_of_nat ddof)%float in
  let avg := (np_sum values / count)%float in
  let sqr := map2 (fun x v => if is_nan x then 0%float
                              else ((avg - v) * (avg - v))%float) l values in
  PrimFloat.sqrt (np_sum sqr / d)%float.

(** [np.select(condlist, choicelist, default)]: the choice of the first
    condition that holds, else the default. *)
Fixpoint np_select_at (conds : list bool) (choices : list float) (default : float) : float :=
  match conds, choices with
  | c :: conds', x :: choices' => if c then x else np_select_at conds' choices' default
  | _, _ => default
  end.

Fixpoint np_select (condlist : list (list bool)) (choicelist : list float)
         (default : list float) : list float :=
  match default with
  | [] => []
  | d :: default' =>
      np_select_at (map (fun c => hd false c) condlist) choicelist d
      :: np_select (map (fun c => tl c) condlist) choicelist default'
  end.

(** ** DataFrame *)

Record DataFrame : Type := mkDataFrame {
  index_size : nat;
  columns : list (string * Series)
}.

Fixpoint lookup (name : string) (cols : list (string * Series)) : option Series :=
  match cols with
  | [] => None
  | (n, s) :: rest => if String.eqb n name then Some s else lookup name rest
  end.

(** [df[name] = s]: an existing column is replaced in place, a new one is
    appended. *)
Fixpoint assign (name : string) (s : Series) (cols : list (string * Series))
  : list (string * Series) :=
  match cols with
  | [] => [(name, s)]
  | (n, c) :: rest =>
      if String.eqb n name then (n, s) :: rest else (n, c) :: assign name s rest
  end.

(** [df[name]] on a given frame: KeyError when the column is absent. *)
Definition frame_getitem (df : DataFrame) (name : string) : result Series :=
  match lookup name (columns df) with
  | Some s => Ok s
  | None => Raise KeyError
  end.

(** [df[mask]]: a new frame with the selected rows of every column. *)
Definition boolean_index (df : DataFrame) (mask : list bool) : DataFrame :=
  mkDataFrame (List.length (filter (fun b => b) mask))
              (map (fun c => (fst c, select mask (snd c))) (columns df)).

(** Row [i] of a frame has a missing value in some column. *)
Definition row_has_na (df : DataFrame) (i : nat) : bool :=
  existsb (fun c => match nth_error (snd c) i with
                    | Some v => isna v
                    | None => false
                    end) (columns df).

(** [df.dropna()]: a new frame without the rows that have a missing value
    in any column. *)
Definition dropna (df : DataFrame) : DataFrame :=
  boolean_index df (map (fun i => negb (row_has_na df i)) (seq 0 (index_size df))).

(** A row handed to the function of [df.apply(f, axis=1)]: indexing it by
    a column name gives the cell, KeyError when the column is absent. *)
Definition row : Type := string -> result pyobj.

Definition row_at (df : DataFrame) (i : nat) : row :=
  fun name =>
    match lookup name (columns df) with
    | Some s => match nth_error s i with
                | Some v => Ok v
                | None => Raise KeyError
                end
    | None => Raise KeyError
    end.

Definition apply_axis1 (f : row -> result pyobj) (df : DataFrame) : result Series :=
  mapM (fun i => f (row_at df i)) (seq 0 (index_size df)).

(** ** The monad of a check: the caller's DataFrame as state, exceptions *)

Definition Py (A : Type) : Type := DataFrame -> result A * DataFrame.

Definition ret {A : Type} (a : A) : Py A := fun df => (Ok a, df).

Definition raise {A : Type} (e : exn) : Py A := fun df => (Raise e, df).

Definition bind {A B : Type} (m : Py A) (k : A -> Py B) : Py B :=
  fun df =>
    match m df with
    | (Ok a, df') => k a df'
    | (Raise e, df') => (Raise e, df')
    end.

Definition lift {A : Type} (r : result A) : Py A := fun df => (r, df).

(** The frame the name [wdpa_df] refers to. *)
Definition this : Py DataFrame := fun df => (Ok df, df).

Definition getitem (name : string) : Py Series :=
  fun df => (frame_getitem df name, df).

Definition setitem (name : string) (s : Series) : Py unit :=
  fun df => (Ok tt, mkDataFrame (index_size df) (assign name s (columns df))).

Declare Scope py_scope.
Delimit Scope py_scope with py.
Notation "x <- c1 ;; c2" := (bind c1 (fun x => c2))
  (at level 61, c1 at next level, right associativity) : py_scope.
Notation "c1 ;; c2" := (bind c1 (fun _ => c2))
  (at level 61, right associativity) : py_scope.
Local Open Scope py_scope.

(** [wdpa_df[mask]['WDPA_PID'].values] *)
Definition wdpa_pid_where (mask : list bool) : Py Series :=
  wdpa_df <- this ;;
  lift (frame_getitem (boolean_index wdpa_df mask) "WDPA_PID").

(** What a check returns: a boolean, or the array of offending WDPA_PIDs. *)
Inductive outcome : Type :=
| OBool (b : bool)
| OArray (a : Series).

(** The common ending of the checks:
    [if return_pid: return invalid_wdpa_pid] /
    [return len(invalid_wdpa_pid) > 0]. *)
Definition report (invalid_wdpa_pid : Series) (return_pid : bool) : outcome :=
  if return_pid then OArray invalid_wdpa_pid
  else OBool (0 <? List.length invalid_wdpa_pid)%nat.

Notation "'let?' x ':=' r 'in' k" := (rbind r (fun x => k))
  (at level 10, x name, r at level 100, k at level 200).

(** Element-wise arithmetic and comparison of two columns. *)
Definition series_binop (op : float -> float -> float) (a b : Series)
  : result (list float) :=
  mapM (fun cells => arith op (fst cells) (snd cells)) (combine a b).

Definition series_compare (cmp : float -> float -> bool) (a b : Series)
  : result (list bool) :=
  mapM (fun cells => compare cmp (fst cells) (snd cells)) (combine a b).

(** [Series.str.contains(pattern, case=False)] for a pattern that is an
    alternation of escaped single characters ([re.escape] of each, joined
    by '|'): a string matches when one of the characters occurs in it;
    none of the characters searched for is a letter, so ignoring case
    changes nothing.  The [.str] accessor is for columns of objects: on a
    float64 column it raises AttributeError.  A cell that is not a string
    gives NaN, with which the boolean indexing that follows raises
    ValueError. *)
Definition contains_any (chars : list ascii) (s : string) : bool :=
  existsb (fun c => existsb (Ascii.eqb c) chars) (list_ascii_of_string s).

Definition str_contains (chars : list ascii) (is_float64 : bool) (s : Series)
  : result (list bool) :=
  if is_float64 then Raise AttributeError
  else mapM (fun v => match v with
                      | PyStr t => Ok (contains_any chars t)
                      | _ => Raise ValueError
                      end) s.

(** [str.split(sep)] for a one-character separator: every separator ends a
    component, so a leading, trailing or doubled separator gives an empty
    component, and the empty string splits into one empty component. *)
Fixpoint str_split (sep : ascii) (s : string) : list string :=
  match s with
  | EmptyString => [EmptyString]
  | String c s' =>
      if Ascii.eqb c sep then EmptyString :: str_split sep s'
      else match str_split sep s' with
           | [] => [String c EmptyString]
           | w :: ws => String c w :: ws
           end
  end.

(** [itertools.combinations(l, k)] *)
Fixpoint combinations {A : Type} (k : nat) (l : list A) : list (list A) :=
  match k with
  | O => [[]]
  | S k' =>
      match l with
      | [] => []
      | x :: xs => map (cons x) (combinations k' xs) ++ combinations k xs
      end
  end.

(** [str(n)] of a non-negative integer. *)
Definition str_of_nat (n : nat) : string := NilEmpty.string_of_uint (Nat.to_uint n).

Definition is_empty {A : Type} (l : list A) : bool :=
  match l with
  | [] => true
  | _ :: _ => false
  end.

Section Checks.

(** The alpha-3 column of the downloaded ISO 3166 table, and the year of
    [datetime.date.today()]: both come from outside the module. *)
Variable iso3_df_alpha3 : list string.
Variable today_year : nat.

(** [iso3 = np.append(iso3_df['alpha-3'].values, 'ABNJ')] *)
Definition iso3 : list string := iso3_df_alpha3 ++ ["ABNJ"].

(** *** 2.1 Duplicate WDPA_PIDs *)

Definition duplicate_wdpa_pid (return_pid : bool) : Py outcome :=
  if return_pid then
    ids <- getitem "WDPA_PID" ;;
    ret (OArray (unique (select (duplicated ids) ids)))
  else
    ids <- getitem "WDPA_PID" ;;
    wdpa_df <- this ;;
    ret (OBool (negb (nunique ids =? index_size wdpa_df)%nat)).

(** *** 2.2 MARINE against GIS_M_AREA / GIS_AREA *)

Definition coast_min : float := 0.1%float.
Definition coast_max : float := 0.9%float.

Definition assign_marine_gis_value (wdpa_df : row) : result pyobj :=
  let? p := rbind (wdpa_df "marine_GIS_proportion") as_float in
  if (p <=? coast_min)%float then Ok (PyStr "0")
  else if (coast_min <? p)%float && (p <? coast_max)%float then Ok (PyStr "1")
  else if (coast_max <=? p)%float then Ok (PyStr "2")
  else Ok PyNone.

Definition area_invalid_marine (return_pid : bool) : Py outcome :=
  gis_m_area <- getitem "GIS_M_AREA" ;;
  gis_area <- getitem "GIS_AREA" ;;
  proportion <- lift (series_binop PrimFloat.div gis_m_area gis_area) ;;
  setitem "marine_GIS_proportion" (of_float64 proportion) ;;
  wdpa_df <- this ;;
  marine_gis_value <- lift (apply_axis1 assign_marine_gis_value wdpa_df) ;;
  setitem "marine_GIS_value" marine_gis_value ;;
  value <- getitem "marine_GIS_value" ;;
  marine <- getitem "MARINE" ;;
  invalid_wdpa_pid <- wdpa_pid_where (map2 cmp_ne value marine) ;;
  ret (report invalid_wdpa_pid return_pid).

(** *** 2.3 - 2.6 One area much larger than the other *)

Definition MAX_ALLOWED_SIZE_DIFF_KM2 : float := 50%float.

(** [(wdpa_df[a] + wdpa_df[b]) / wdpa_df[d]] *)
Definition relative_size_of (a b d : string) : Py (list float) :=
  col_a <- getitem a ;;
  col_b <- getitem b ;;
  sum <- lift (series_binop PrimFloat.add col_a col_b) ;;
  col_d <- getitem d ;;
  lift (series_binop PrimFloat.div (of_float64 sum) col_d).

(** The threshold: mean plus twice the standard deviation of the ratios,
    those above 100 or below 0 replaced by NaN beforehand. *)
Definition max_relative_size (calc : list float) : float :=
  let condition := [map (fun c => (100 <? c)%float) calc;
                    map (fun c => (c <? 0)%float) calc] in
  let choice := [nan; nan] in
  let relative_size_stats := np_select condition choice calc in
  (Series_mean relative_size_stats + 2 * Series_std relative_size_stats)%float.

(** The body shared by the four checks: the ratio is [(a + b) / d] and the
    absolute difference is [abs(x - y)]. *)
Definition area_invalid_too_large (a b d x y : string) (return_pid : bool)
  : Py outcome :=
  calc <- relative_size_of a b d ;;
  let max_allowed := max_relative_size calc in
  relative_size <- relative_size_of a b d ;;
  col_x <- getitem x ;;
  col_y <- getitem y ;;
  diff <- lift (series_binop PrimFloat.sub col_x col_y) ;;
  invalid_wdpa_pid <-
    wdpa_pid_where
      (mask_and (map (fun r => (max_allowed <? r)%float) relative_size)
                (map (fun v => (MAX_ALLOWED_SIZE_DIFF_KM2 <? abs v)%float) diff)) ;;
  ret (report invalid_wdpa_pid return_pid).

Definition area_invalid_too_large_gis : bool -> Py outcome :=
  area_invalid_too_large "REP_AREA" "GIS_AREA" "REP_AREA" "GIS_AREA" "REP_AREA".

Definition area_invalid_too_large_rep : bool -> Py outcome :=
  area_invalid_too_large "REP_AREA" "GIS_AREA" "GIS_AREA" "REP_AREA" "GIS_AREA".

Definition area_invalid_too_large_gis_m : bool -> Py outcome :=
  area_invalid_too_large "REP_M_AREA" "GIS_M_AREA" "REP_M_AREA" "GIS_M_AREA" "REP_M_AREA".

Definition area_invalid_too_large_rep_m : bool -> Py outcome :=
  area_invalid_too_large "REP_M_AREA" "GIS_M_AREA" "GIS_M_AREA" "REP_M_AREA" "GIS_M_AREA".

(** *** 2.7 - 2.10 Tiny or zero areas *)

Definition series_le_scalar (s : Series) (c : float) : result (list bool) :=
  mapM (fun v => compare PrimFloat.leb v (PyFloat c)) s.

Definition area_invalid_le (field : string) (size_threshold : float)
           (return_pid : bool) : Py outcome :=
  col <- getitem field ;;
  mask <- lift (series_le_scalar col size_threshold) ;;
  invalid_wdpa_pid <- wdpa_pid_where mask ;;
  ret (report invalid_wdpa_pid return_pid).

Definition area_invalid_gis_area : bool -> Py outcome :=
  area_invalid_le "GIS_AREA" 0.0001%float.

Definition area_invalid_rep_area : bool -> Py outcome :=
  area_invalid_le "REP_AREA" 0.0001%float.

Definition area_invalid_le_when (field : string) (field_allowed_values : float)
           (condition_field : string) (condition_crit : list pyobj)
           (return_pid : bool) : Py outcome :=
  col <- getitem field ;;
  small <- lift (series_le_scalar col field_allowed_values) ;;
  cond <- getitem condition_field ;;
  invalid_wdpa_pid <- wdpa_pid_where (mask_and small (isin cond condition_crit)) ;;
  ret (report invalid_wdpa_pid return_pid).

Definition area_invalid_rep_m_area_marine12 : bool -> Py outcome :=
  area_invalid_le_when "REP_M_AREA" 0%float "MARINE" [PyStr "1"; PyStr "2"].

Definition area_invalid_gis_m_area_marine12 : bool -> Py outcome :=
  area_invalid_le_when "GIS_M_AREA" 0%float "MARINE" [PyStr "1"; PyStr "2"].

(** *** 2.11 NO_TAKE = 'All' with REP_M_AREA unequal to NO_TK_AREA *)

Definition invalid_no_take_no_tk_area_rep_m_area (return_pid : bool) : Py outcome :=
  no_take <- getitem "NO_TAKE" ;;
  wdpa_df <- this ;;
  let no_take_all :=
    boolean_index wdpa_df (map (fun v => cmp_eq v (PyStr "All")) no_take) in
  rep_m_area <- lift (frame_getitem no_take_all "REP_M_AREA") ;;
  no_tk_area <- lift (frame_getitem no_take_all "NO_TK_AREA") ;;
  invalid_wdpa_pid <-
    lift (frame_getitem (boolean_index no_take_all (map2 cmp_ne rep_m_area no_tk_area))
                        "WDPA_PID") ;;
  ret (report invalid_wdpa_pid return_pid).

(** *** 4. Invalid values: the two factory functions *)

Definition invalid_value_in_field (field : string) (field_allowed_values : list pyobj)
           (condition_field : string) (condition_crit : list pyobj)
           (return_pid : bool) : Py outcome :=
  invalid_wdpa_pid <-
    (if negb (String.eqb condition_field "") && negb (is_empty condition_crit) then
       col <- getitem field ;;
       cond <- getitem condition_field ;;
       wdpa_pid_where (mask_and (mask_not (isin col field_allowed_values))
                                (isin cond condition_crit))
     else
       col <- getitem field ;;
       wdpa_pid_where (mask_not (isin col field_allowed_values))) ;;
  ret (report invalid_wdpa_pid return_pid).

Definition invalid_value_in_field_isnot (field : string) (field_allowed_values : list pyobj)
           (condition_field : string) (condition_crit : list pyobj)
           (return_pid : bool) : Py outcome :=
  invalid_wdpa_pid <-
    (if negb (String.eqb condition_field "") && negb (is_empty condition_crit) then
       col <- getitem field ;;
       cond <- getitem condition_field ;;
       wdpa_pid_where (mask_and (mask_not (isin col field_allowed_values))
                                (mask_not (isin cond condition_crit)))
     else
       col <- getitem field ;;
       wdpa_pid_where (mask_not (isin col field_allowed_values))) ;;
  ret (report invalid_wdpa_pid return_pid).

(** *** 2.12, 2.13 The two hardcoded "other designation" checks *)

Definition invalid_other (field : string) (field_allowed_values : list pyobj)
           (condition_field : string) (condition_crit : list pyobj)
           (return_pid : bool) : Py outcome :=
  col <- getitem field ;;
  cond <- getitem condition_field ;;
  invalid_wdpa_pid <-
    wdpa_pid_where (mask_and (mask_not (isin col field_allowed_values))
                             (mask_not (isin cond condition_crit))) ;;
  ret (report invalid_wdpa_pid return_pid).

Definition invalid_int_crit_desig_eng_other : bool -> Py outcome :=
  invalid_other "DESIG_ENG"
    [PyStr "Ramsar Site, Wetland of International Importance";
     PyStr "World Heritage Site (natural or mixed)"]
    "INT_CRIT" [PyStr "Not Applicable"].

Definition invalid_desig_eng_iucn_cat_other : bool -> Py outcome :=
  invalid_other "IUCN_CAT"
    [PyStr "Ia"; PyStr "Ib"; PyStr "II"; PyStr "III"; PyStr "IV"; PyStr "V";
     PyStr "VI"; PyStr "Not Reported"; PyStr "Not Assigned"]
    "DESIG_ENG"
    [PyStr "UNESCO-MAB Biosphere Reserve";
     PyStr "World Heritage Site (natural or mixed)"].

(** *** 3. Inconsistent fields for the same WDPAID *)

Definition inconsistent_fields_same_wdpaid (check_field : string) (return_pid : bool)
  : Py outcome :=
  if return_pid then
    wdpaid <- getitem "WDPAID" ;;
    col <- getitem check_field ;;
    let wdpaid_groups := groupby_nunique wdpaid col in
    let several := map fst (filter (fun g => (1 <? snd g)%nat) wdpaid_groups) in
    invalid_wdpa_pid <- wdpa_pid_where (isin wdpaid several) ;;
    ret (OArray invalid_wdpa_pid)
  else
    wdpaid <- getitem "WDPAID" ;;
    col <- getitem check_field ;;
    let wdpaid_groups := groupby_nunique wdpaid col in
    ret (OBool (0 <? List.length (filter (fun g => (1 <? snd g)%nat) wdpaid_groups))%nat).

(** *** 4.20, 4.21 Country codes *)

Fixpoint all_in_iso3 (parts : list string) : bool :=
  match parts with
  | [] => true
  | each :: rest =>
      if existsb (String.eqb each) iso3 then all_in_iso3 rest else false
  end.

(** [_correct_iso3]: [field.split(';')] needs a string; on [None] or NaN
    the attribute lookup raises AttributeError. *)
Definition _correct_iso3 (field : pyobj) : result bool :=
  match field with
  | PyStr s => Ok (all_in_iso3 (str_split ";" s))
  | _ => Raise AttributeError
  end.

(** [apply] on a column of no rows does not give a column of booleans but
    an empty column of objects: indexing the frame with it selects
    columns, none, and WDPA_PID is not among them. *)
Definition invalid_country_codes (field : string) (return_pid : bool) : Py outcome :=
  col <- getitem field ;;
  correct <- lift (mapM _correct_iso3 col) ;;
  invalid_wdpa_pid <-
    (if is_empty col then raise KeyError
     else wdpa_pid_where (mask_not correct)) ;;
  ret (report invalid_wdpa_pid return_pid).

Definition invalid_parent_iso3 : bool -> Py outcome :=
  invalid_country_codes "PARENT_ISO3".

Definition invalid_iso3 : bool -> Py outcome :=
  invalid_country_codes "ISO3".

(** *** 5. Area invalid size *)

Definition area_invalid_size (field_small_area field_large_area : string)
           (return_pid : bool) : Py outcome :=
  let size_threshold := 1.0001%float in
  invalid_wdpa_pid <-
    (if negb (String.eqb field_small_area "") && negb (String.eqb field_large_area "") then
       small <- getitem field_small_area ;;
       large <- getitem field_large_area ;;
       product <- lift (mapM (arith PrimFloat.mul (PyFloat size_threshold)) large) ;;
       mask <- lift (series_compare (fun s p => (p <? s)%float)
                                    small (of_float64 product)) ;;
       wdpa_pid_where mask
     else raise Exception) ;;
  ret (report invalid_wdpa_pid return_pid).

(** *** 6. Forbidden characters *)

(** '<', '>', '?', '*', carriage return and line feed. *)
Definition forbidden_characters : list ascii :=
  ["<"; ">"; "?"; "*"; "013"; "010"]%char.

(** The rows that [dropna] removes do not change the dtype of a column:
    the dtype that [.str] meets is that of the caller's column. *)
Definition forbidden_character (check_field : string) (return_pid : bool) : Py outcome :=
  caller <- this ;;
  let wdpa_df := dropna caller in
  col <- lift (frame_getitem wdpa_df check_field) ;;
  typed <- lift (frame_getitem caller check_field) ;;
  mask <- lift (str_contains forbidden_characters (float64 typed) col) ;;
  invalid_wdpa_pid <- lift (frame_getitem (boolean_index wdpa_df mask) "WDPA_PID") ;;
  ret (report invalid_wdpa_pid return_pid).

(** *** 7. NaN present *)

Definition nan_present (check_field : string) (return_pid : bool) : Py outcome :=
  col <- getitem check_field ;;
  invalid_wdpa_pid <- wdpa_pid_where (map isna col) ;;
  ret (report invalid_wdpa_pid return_pid).

(** *** 3.1 - 3.18 The inconsistency checks *)

Definition inconsistent_name_same_wdpaid := inconsistent_fields_same_wdpaid "NAME".
Definition inconsistent_orig_name_same_wdpaid := inconsistent_fields_same_wdpaid "ORIG_NAME".
Definition inconsistent_desig_same_wdpaid := inconsistent_fields_same_wdpaid "DESIG".
Definition inconsistent_desig_eng_same_wdpaid := inconsistent_fields_same_wdpaid "DESIG_ENG".
Definition inconsistent_desig_type_same_wdpaid := inconsistent_fields_same_wdpaid "DESIG_TYPE".
Definition inconsistent_int_crit_same_wdpaid := inconsistent_fields_same_wdpaid "INT_CRIT".
Definition inconsistent_no_take_same_wdpaid := inconsistent_fields_same_wdpaid "NO_TAKE".
Definition inconsistent_status_same_wdpaid := inconsistent_fields_same_wdpaid "STATUS".
Definition inconsistent_status_yr_same_wdpaid := inconsistent_fields_same_wdpaid "STATUS_YR".
Definition inconsistent_gov_type_same_wdpaid := inconsistent_fields_same_wdpaid "GOV_TYPE".
Definition inconsistent_own_type_same_wdpaid := inconsistent_fields_same_wdpaid "OWN_TYPE".
Definition inconsistent_mang_auth_same_wdpaid := inconsistent_fields_same_wdpaid "MANG_AUTH".
Definition inconsistent_mang_plan_same_wdpaid := inconsistent_fields_same_wdpaid "MANG_PLAN".
Definition inconsistent_verif_same_wdpaid := inconsistent_fields_same_wdpaid "VERIF".
Definition inconsistent_metadataid_same_wdpaid := inconsistent_fields_same_wdpaid "METADATAID".
Definition inconsistent_sub_loc_same_wdpaid := inconsistent_fields_same_wdpaid "SUB_LOC".
Definition inconsistent_parent_iso3_same_wdpaid := inconsistent_fields_same_wdpaid "PARENT_ISO3".
Definition inconsistent_iso3_same_wdpaid := inconsistent_fields_same_wdpaid "ISO3".

(** *** 4.1 - 4.22 The invalid-value checks *)

Definition strs (l : list string) : list pyobj := map PyStr l.

Definition international_desig_eng : list string :=
  ["Ramsar Site, Wetland of International Importance";
   "UNESCO-MAB Biosphere Reserve";
   "World Heritage Site (natural or mixed)"].

Definition regional_desig_eng : list string :=
  ["Baltic Sea Protected Area (HELCOM)";
   "Specially Protected Area (Cartagena Convention)";
   "Marine Protected Area (CCAMLR)";
   "Marine Protected Area (OSPAR)";
   "Site of Community Importance (Habitats Directive)";
   "Special Protection Area (Birds Directive)";
   "Specially Protected Areas of Mediterranean Importance (Barcelona Convention)"].

Definition invalid_pa_def : bool -> Py outcome :=
  invalid_value_in_field "PA_DEF" (strs ["1"]) "" [].

Definition invalid_desig_eng_international : bool -> Py outcome :=
  invalid_value_in_field "DESIG_ENG" (strs international_desig_eng)
                         "DESIG_TYPE" (strs ["International"]).

Definition invalid_desig_type_international : bool -> Py outcome :=
  invalid_value_in_field "DESIG_TYPE" (strs ["International"])
                         "DESIG_ENG" (strs international_desig_eng).

Definition invalid_desig_eng_regional : bool -> Py outcome :=
  invalid_value_in_field "DESIG_ENG" (strs regional_desig_eng)
                         "DESIG_TYPE" (strs ["Regional"]).

Definition invalid_desig_type_regional : bool -> Py outcome :=
  invalid_value_in_field "DESIG_TYPE" (strs ["Regional"])
                         "DESIG_ENG" (strs regional_desig_eng).

(** [generate_combinations]: the concatenations of every non-empty
    combination of the ten criteria, shortest first. *)
Definition INT_CRIT_ELEMENTS : list string :=
  ["(i)"; "(ii)"; "(iii)"; "(iv)"; "(v)"; "(vi)"; "(vii)"; "(viii)"; "(ix)"; "(x)"].

Definition generate_combinations : list string :=
  flat_map (fun length_combi =>
              map (String.concat "") (combinations length_combi INT_CRIT_ELEMENTS))
           (seq 1 (List.length INT_CRIT_ELEMENTS)).

Definition invalid_int_crit_desig_eng_ramsar_whs : bool -> Py outcome :=
  invalid_value_in_field "INT_CRIT" (strs (generate_combinations ++ ["Not Reported"]))
                         "DESIG_ENG"
                         (strs ["Ramsar Site, Wetland of International Importance";
                                "World Heritage Site (natural or mixed)"]).

Definition invalid_desig_type : bool -> Py outcome :=
  invalid_value_in_field "DESIG_TYPE"
    (strs ["National"; "Regional"; "International"; "Not Applicable"]) "" [].

Definition invalid_iucn_cat : bool -> Py outcome :=
  invalid_value_in_field "IUCN_CAT"
    (strs ["Ia"; "Ib"; "II"; "III"; "IV"; "V"; "VI";
           "Not Reported"; "Not Applicable"; "Not Assigned"]) "" [].

Definition invalid_iucn_cat_unesco_whs : bool -> Py outcome :=
  invalid_value_in_field "IUCN_CAT" (strs ["Not Applicable"])
                         "DESIG_ENG"
                         (strs ["UNESCO-MAB Biosphere Reserve";
                                "World Heritage Site (natural or mixed)"]).

Definition invalid_marine : bool -> Py outcome :=
  invalid_value_in_field "MARINE" (strs ["0"; "1"; "2"]) "" [].

Definition invalid_no_take_marine0 : bool -> Py outcome :=
  invalid_value_in_field "NO_TAKE" (strs ["Not Applicable"]) "MARINE" (strs ["0"]).

Definition invalid_no_take_marine12 : bool -> Py outcome :=
  invalid_value_in_field "NO_TAKE" (strs ["All"; "Part"; "None"; "Not Reported"])
                         "MARINE" (strs ["1"; "2"]).

Definition invalid_no_tk_area_marine0 : bool -> Py outcome :=
  invalid_value_in_field "NO_TK_AREA" [PyFloat 0%float] "MARINE" (strs ["0"]).

Definition invalid_no_tk_area_no_take : bool -> Py outcome :=
  invalid_value_in_field "NO_TK_AREA" [PyFloat 0%float]
                         "NO_TAKE" (strs ["Not Applicable"]).

Definition invalid_status : bool -> Py outcome :=
  invalid_value_in_field_isnot "STATUS" (strs ["Proposed"; "Designated"; "Established"])
    "DESIG_ENG"
    (strs ["World Heritage Site (natural or mixed)";
           "Specially Protected Areas of Mediterranean Importance (Barcelona Convention)"]).

Definition invalid_status_WH : bool -> Py outcome :=
  invalid_value_in_field "STATUS" (strs ["Proposed"; "Inscribed"])
                         "DESIG_ENG" (strs ["World Heritage Site (natural or mixed)"]).

Definition invalid_status_Barca : bool -> Py outcome :=
  invalid_value_in_field "STATUS" (strs ["Proposed"; "Adopted"])
    "DESIG_ENG"
    (strs ["Specially Protected Areas of Mediterranean Importance (Barcelona Convention)"]).

Definition invalid_status_yr : bool -> Py outcome :=
  let year := today_year in
  let yearArray := 0 :: seq 1750 (year + 1 - 1750) in
  invalid_value_in_field "STATUS_YR" (strs (map str_of_nat yearArray)) "" [].

Definition invalid_gov_type : bool -> Py outcome :=
  invalid_value_in_field "GOV_TYPE"
    (strs ["Federal or national ministry or agency";
           "Sub-national ministry or agency";
           "Government-delegated management";
           "Transboundary governance";
           "Collaborative governance";
           "Joint governance";
           "Individual landowners";
           "Non-profit organisations";
           "For-profit organisations";
           "Indigenous peoples";
           "Local communities";
           "Not Reported"]) "" [].

Definition invalid_own_type : bool -> Py outcome :=
  invalid_value_in_field "OWN_TYPE"
    (strs ["State"; "Communal"; "Individual landowners"; "For-profit organisations";
           "Non-profit organisations"; "Joint ownership"; "Multiple ownership";
           "Contested"; "Not Reported"]) "" [].

Definition invalid_verif : bool -> Py outcome :=
  invalid_value_in_field "VERIF"
    (strs ["State Verified"; "Expert Verified"; "Not Reported"]) "" [].

Definition invalid_status_desig_type : bool -> Py outcome :=
  invalid_value_in_field "STATUS" (strs ["Established"])
                         "DESIG_TYPE" (strs ["Not Applicable"]).

(** *** 5.1 - 5.4 The area-size checks *)

Definition area_invalid_no_tk_area_rep_m_area := area_invalid_size "NO_TK_AREA" "REP_M_AREA".
Definition area_invalid_no_tk_area_gis_m_area := area_invalid_size "NO_TK_AREA" "GIS_M_AREA".
Definition area_invalid_gis_m_area_gis_area := area_invalid_size "GIS_M_AREA" "GIS_AREA".
Definition area_invalid_rep_m_area_rep_area := area_invalid_size "REP_M_AREA" "REP_AREA".

(** *** 6.1 - 6.7 The forbidden-character checks *)

Definition forbidden_character_name := forbidden_character "NAME".
Definition forbidden_character_orig_name := forbidden_character "ORIG_NAME".
Definition forbidden_character_desig := forbidden_character "DESIG".
Definition forbidden_character_desig_eng := forbidden_character "DESIG_ENG".
Definition forbidden_character_mang_auth := forbidden_character "MANG_AUTH".
Definition forbidden_character_mang_plan := forbidden_character "MANG_PLAN".
Definition forbidden_character_sub_loc := forbidden_character "SUB_LOC".

(** *** 7.1 - 7.8 The NaN-present checks *)

Definition ivd_nan_present_name := nan_present "NAME".
Definition ivd_nan_present_orig_name := nan_present "ORIG_NAME".
Definition ivd_nan_present_desig := nan_present "DESIG".
Definition ivd_nan_present_desig_eng := nan_present "DESIG_ENG".
Definition ivd_nan_present_mang_auth := nan_present "MANG_AUTH".
Definition ivd_nan_present_mang_plan := nan_present "MANG_PLAN".
Definition ivd_nan_present_sub_loc := nan_present "SUB_LOC".
Definition ivd_nan_present_metadataid := nan_present "METADATAID".

(** ** The catalog *)

Definition check : Type := string * (bool -> Py outcome).

Definition core_checks : list check :=
  [("duplicate_wdpa_pid", duplicate_wdpa_pid);
   ("tiny_rep_area", area_invalid_rep_area);
   ("zero_rep_m_area_marine12", area_invalid_rep_m_area_marine12);
   ("ivd_rep_m_area_gt_rep_area", area_invalid_rep_m_area_rep_area);
   ("ivd_no_tk_area_gt_rep_m_area", area_invalid_no_tk_area_rep_m_area);
   ("ivd_no_tk_area_rep_m_area", invalid_no_take_no_tk_area_rep_m_area);
   ("ivd_int_crit_desig_eng_other", invalid_int_crit_desig_eng_other);
   ("ivd_desig_eng_iucn_cat_other", invalid_desig_eng_iucn_cat_other);
   ("dif_name_same_id", inconsistent_name_same_wdpaid);
   ("dif_orig_name_same_id", inconsistent_orig_name_same_wdpaid);
   ("ivd_dif_desig_same_id", inconsistent_desig_same_wdpaid);
   ("ivd_dif_desig_eng_same_id", inconsistent_desig_eng_same_wdpaid);
   ("dif_desig_type_same_id", inconsistent_desig_type_same_wdpaid);
   ("dif_int_crit_same_id", inconsistent_int_crit_same_wdpaid);
   ("dif_no_take_same_id", inconsistent_no_take_same_wdpaid);
   ("dif_status_same_id", inconsistent_status_same_wdpaid);
   ("dif_status_yr_same_id", inconsistent_status_yr_same_wdpaid);
   ("dif_gov_type_same_id", inconsistent_gov_type_same_wdpaid);
   ("dif_own_type_same_id", inconsistent_own_type_same_wdpaid);
   ("dif_mang_auth_same_id", inconsistent_mang_auth_same_wdpaid);
   ("dif_mang_plan_same_id", inconsistent_mang_plan_same_wdpaid);
   ("ivd_dif_verif_same_id", inconsistent_verif_same_wdpaid);
   ("ivd_dif_metadataid_same_id", inconsistent_metadataid_same_wdpaid);
   ("ivd_dif_sub_loc_same_id", inconsistent_sub_loc_same_wdpaid);
   ("ivd_dif_parent_iso3_same_id", inconsistent_parent_iso3_same_wdpaid);
   ("ivd_dif_iso3_same_id", inconsistent_iso3_same_wdpaid);
   ("ivd_pa_def", invalid_pa_def);
   ("ivd_desig_eng_international", invalid_desig_eng_international);
   ("ivd_desig_type_international", invalid_desig_type_international);
   ("ivd_desig_eng_regional", invalid_desig_eng_regional);
   ("ivd_desig_type_regional", invalid_desig_type_regional);
   ("ivd_int_crit", invalid_int_crit_desig_eng_ramsar_whs);
   ("ivd_desig_type", invalid_desig_type);
   ("ivd_iucn_cat", invalid_iucn_cat);
   ("ivd_iucn_cat_unesco_whs", invalid_iucn_cat_unesco_whs);
   ("ivd_marine", invalid_marine);
   ("check_no_take_marine0", invalid_no_take_marine0);
   ("ivd_no_take_marine12", invalid_no_take_marine12);
   ("check_no_tk_area_marine0", invalid_no_tk_area_marine0);
   ("ivd_no_tk_area_no_take", invalid_no_tk_area_no_take);
   ("ivd_status", invalid_status);
   ("ivd_status_WH", invalid_status_WH);
   ("ivd_status_BarcelonaConv", invalid_status_Barca);
   ("ivd_status_yr", invalid_status_yr);
   ("ivd_gov_type", invalid_gov_type);
   ("ivd_own_type", invalid_own_type);
   ("ivd_verif", invalid_verif);
   ("check_parent_iso3", invalid_parent_iso3);
   ("check_iso3", invalid_iso3);
   ("ivd_status_desig_type", invalid_status_desig_type);
   ("ivd_character_name", forbidden_character_name);
   ("ivd_character_orig_name", forbidden_character_orig_name);
   ("ivd_character_desig", forbidden_character_desig);
   ("ivd_character_desig_eng", forbidden_character_desig_eng);
   ("ivd_character_mang_auth", forbidden_character_mang_auth);
   ("ivd_character_mang_plan", forbidden_character_mang_plan);
   ("ivd_character_sub_loc", forbidden_character_sub_loc);
   ("ivd_nan_present_name", ivd_nan_present_name);
   ("ivd_nan_present_orig_name", ivd_nan_present_orig_name);
   ("ivd_nan_present_desig", ivd_nan_present_desig);
   ("ivd_nan_present_desig_eng", ivd_nan_present_desig_eng);
   ("ivd_nan_present_mang_auth", ivd_nan_present_mang_auth);
   ("ivd_nan_present_mang_plan", ivd_nan_present_mang_plan);
   ("ivd_nan_present_sub_loc", ivd_nan_present_sub_loc);
   ("ivd_nan_present_metadataid", ivd_nan_present_metadataid)].

Definition area_checks : list check :=
  [("gis_area_gt_rep_area", area_invalid_too_large_gis);
   ("rep_area_gt_gis_area", area_invalid_too_large_rep);
   ("gis_m_area_gt_rep_m_area", area_invalid_too_large_gis_m);
   ("rep_m_area_gt_gis_m_area", area_invalid_too_large_rep_m);
   ("tiny_gis_area", area_invalid_gis_area);
   ("no_tk_area_gt_gis_m_area", area_invalid_no_tk_area_gis_m_area);
   ("ivd_gis_m_area_gt_gis_area", area_invalid_gis_m_area_gis_area);
   ("zero_gis_m_area_marine12", area_invalid_gis_m_area_marine12);
   ("ivd_marine_designation", area_invalid_marine)].

Definition poly_checks : list check := core_checks ++ area_checks.

Definition pt_checks : list check := core_checks.

End Checks.

(** ** The rules as the specification words them

    Each rule below is stated over the records of a dataset, one record
    per row, holding the fields the rule looks at. *)

(** *** Statistical area plausibility: A is the reported area (the
    denominator of the ratio), B the GIS-derived one. *)

Record area_record : Type := mk_area_record {
  area_pid : pyobj;
  area_A : float;
  area_B : float
}.

Definition ratio (A B : float) : float := ((A + B) / A)%float.

(** A ratio takes part in the statistics unless it is an outlier
    ([r > 100] or [r < 0]) or undefined. *)
Definition in_statistics (r : float) : bool :=
  negb ((100 <? r)%float || (r <? 0)%float) && negb (is_nan r).

(** The ratios the statistics are taken over: a ratio that takes no part
    is a missing value of the column. *)
Definition statistics_of (recs : list area_record) : list float :=
  map (fun r => let q := ratio (area_A r) (area_B r) in
                if in_statistics q then q else nan) recs.

(** The threshold: mean plus twice the sample standard deviation of the
    ratios that take part.  Mean and deviation are the library's, over
    the column in which the other ratios are missing: a floating-point
    sum depends on the order of its terms, and the library's order goes
    by the position in the column. *)
Definition spec_max_ratio (recs : list area_record) : float :=
  (Series_mean (statistics_of recs) + 2 * Series_std (statistics_of recs))%float.

(** Flagged: the ratio exceeds the threshold and the absolute difference
    exceeds 50 km2. *)
Definition spec_flagged (max_ratio : float) (r : area_record) : bool :=
  (max_ratio <? ratio (area_A r) (area_B r))%float
  && (50 <? abs (area_B r - area_A r))%float.

(** *** Marine classification *)

Record marine_record : Type := mk_marine_record {
  marine_pid : pyobj;
  gis_m_area : float;
  gis_area : float;
  marine : pyobj
}.

(** The band of a ratio: '0', '1', '2', or [None] when no comparison
    holds. *)
Definition band (r : float) : pyobj :=
  if (r <=? 0.1)%float then PyStr "0"
  else if (0.1 <? r)%float && (r <? 0.9)%float then PyStr "1"
  else if (0.9 <=? r)%float then PyStr "2"
  else PyNone.

Definition marine_mismatch (r : marine_record) : bool :=
  cmp_ne (band (gis_m_area r / gis_area r)%float) (marine r).

(** *** Membership *)

Record member_record : Type := mk_member_record {
  member_pid : pyobj;
  member_value : pyobj;
  member_cond : pyobj
}.

(** The condition is in force when both a condition field and condition
    values are given. *)
Definition conditioned (condition_field : string) (condition_crit : list pyobj) : bool :=
  negb (String.eqb condition_field "") && negb (is_empty condition_crit).

(** A record offends when its value is outside the allowed set and the
    condition, if there is one, holds for it. *)
Definition member_offends (allowed : list pyobj) (condition_field : string)
           (condition_crit : list pyobj) (r : member_record) : bool :=
  negb (mem (member_value r) allowed)
  && (negb (conditioned condition_field condition_crit)
      || mem (member_cond r) condition_crit).

(** *** Country codes *)

Record code_record : Type := mk_code_record {
  code_pid : pyobj;
  code_value : string
}.

Definition has_empty_component (s : string) : Prop := In "" (str_split ";" s).

(** The frame [area_invalid_marine] leaves behind: the two derived
    columns written onto the caller's frame. *)
Definition with_marine_columns (df : DataFrame) (props : list float) : DataFrame :=
  mkDataFrame (index_size df)
    (assign "marine_GIS_value" (map band props)
       (assign "marine_GIS_proportion" (of_float64 props) (columns df))).

(** A record is invalid when some component of its code field is not in
    the reference list. *)
Definition codes_invalid (codes : list string) (r : code_record) : bool :=
  negb (all_in_iso3 codes (str_split ";" (code_value r))).

(** *** The two modes of a check *)

(** The boolean answer is "the array of identifiers is non-empty", and an
    exception is the same in both modes. *)
Definition modes_agree_at (pid_mode bool_mode : result outcome) : Prop :=
  match pid_mode, bool_mode with
  | Ok (OArray a), Ok (OBool b) => b = negb (is_empty a)
  | Raise e, Raise e' => e = e'
  | _, _ => False
  end.

Definition agree (pid_mode bool_mode : Py outcome) : Prop :=
  forall df, modes_agree_at (fst (pid_mode df)) (fst (bool_mode df)).

Definition modes_agree (c : bool -> Py outcome) : Prop :=
  agree (c true) (c false).

(** *** What a check does to the caller's frame *)

(** A computation is read-only when the frame is the same after it as
    before, whatever it returns or raises. *)
Definition read_only {A : Type} (m : Py A) : Prop :=
  forall df, snd (m df) = df.

Definition check_read_only (c : bool -> Py outcome) : Prop :=
  forall return_pid, read_only (c return_pid).

(** A computation writes only the named columns when it keeps the index
    and every other column. *)
Definition writes_only {A : Type} (names : list string) (m : Py A) : Prop :=
  forall df,
    index_size (snd (m df)) = index_size df
    /\ forall name, ~ In name names ->
                    lookup name (columns (snd (m df))) = lookup name (columns df).

(** ** Example datasets *)

Definition single_null_pid : DataFrame :=
  mkDataFrame 1 [("WDPA_PID", [PyFloat nan])].

Definition null_iso3 : DataFrame :=
  mkDataFrame 1 [("WDPA_PID", [PyStr "1"]); ("ISO3", [PyNone]); ("PARENT_ISO3", [PyNone])].

(** A code with a trailing separator beside a missing code. *)
Definition code_beside_null : DataFrame :=
  mkDataFrame 2
    [("WDPA_PID", [PyStr "1"; PyStr "2"]);
     ("ISO3", [PyStr "USA;"; PyNone]);
     ("PARENT_ISO3", [PyStr "USA;"; PyNone])].

Definition marine_example : DataFrame :=
  mkDataFrame 4
    [("WDPA_PID", [PyStr "1"; PyStr "2"; PyStr "3"; PyStr "4"]);
     ("GIS_M_AREA", [PyFloat 0; PyFloat 1; PyFloat 9; PyFloat 1.0001]);
     ("GIS_AREA", [PyFloat 0; PyFloat 10; PyFloat 10; PyFloat 10]);
     ("MARINE", [PyStr "0"; PyStr "0"; PyStr "1"; PyStr "1"])].

Definition marine_example_records : list marine_record :=
  [mk_marine_record (PyStr "1") 0 0 (PyStr "0");
   mk_marine_record (PyStr "2") 1 10 (PyStr "0");
   mk_marine_record (PyStr "3") 9 10 (PyStr "1");
   mk_marine_record (PyStr "4") 1.0001 10 (PyStr "1")].

Definition zero_denominator_alone : DataFrame :=
  mkDataFrame 1 [("WDPA_PID", [PyStr "1"]); ("REP_AREA", [PyFloat 0]);
                 ("GIS_AREA", [PyFloat 100])].

Definition area_example : DataFrame :=
  mkDataFrame 4
    [("WDPA_PID", [PyStr "1"; PyStr "2"; PyStr "3"; PyStr "4"]);
     ("REP_AREA", [PyFloat 0; PyFloat 10; PyFloat 10; PyFloat 10]);
     ("GIS_AREA", [PyFloat 100; PyFloat 10; PyFloat 11; PyFloat 10])].

Definition area_example_records : list area_record :=
  [mk_area_record (PyStr "1") 0 100;
   mk_area_record (PyStr "2") 10 10;
   mk_area_record (PyStr "3") 10 11;
   mk_area_record (PyStr "4") 10 10].



Definition forbidden_with_other_null : DataFrame :=
  mkDataFrame 1 [("WDPA_PID", [PyStr "1"]); ("NAME", [PyStr "A*B"]);
                 ("SUB_LOC", [PyNone])].

Definition membership_example : DataFrame :=
  mkDataFrame 3
    [("WDPA_PID", [PyStr "1"; PyStr "2"; PyStr "3"]);
     ("DESIG_TYPE", [PyStr "National"; PyStr "Local"; PyNone]);
     ("MARINE", [PyStr "0"; PyStr "1"; PyStr "1"])].

Definition membership_example_records : list member_record :=
  [mk_member_record (PyStr "1") (PyStr "National") (PyStr "0");
   mk_member_record (PyStr "2") (PyStr "Local") (PyStr "1");
   mk_member_record (PyStr "3") PyNone (PyStr "1")].

Definition codes_example : DataFrame :=
  mkDataFrame 3
    [("WDPA_PID", [PyStr "1"; PyStr "2"; PyStr "3"]);
     ("ISO3", [PyStr "USA;FRA"; PyStr "USA;"; PyStr "ABNJ"])].

Definition codes_example_records : list code_record :=
  [mk_code_record (PyStr "1") "USA;FRA";
   mk_code_record (PyStr "2") "USA;";
   mk_code_record (PyStr "3") "ABNJ"].

(** ** Further code and views, for the properties of the checks *)

(** [find_wdpa_rows]: [wdpa_df[wdpa_df['WDPA_PID'].isin(wdpa_pid)]]. *)
Definition find_wdpa_rows (wdpa_pid : list pyobj) : Py DataFrame :=
  ids <- getitem "WDPA_PID" ;;
  wdpa_df <- this ;;
  ret (boolean_index wdpa_df (isin ids wdpa_pid)).

(** How many cells of a column hold the value [v]. *)
Definition count_same (v : pyobj) (s : Series) : nat :=
  List.length (filter (py_same v) s).

(** No value occurs twice. *)
Fixpoint all_distinct (s : Series) : bool :=
  match s with
  | [] => true
  | x :: rest => negb (mem x rest) && all_distinct rest
  end.

(** A WDPAID is inconsistent for a field when it is not missing and the
    rows that carry it have more than one distinct non-missing value of
    the field. *)
Definition inconsistent_key (wdpaid col : Series) (k : pyobj) : bool :=
  negb (isna k) && (1 <? nunique (select (map (py_same k) wdpaid) col))%nat.

Definition repeated_pids : DataFrame :=
  mkDataFrame 4 [("WDPA_PID", [PyStr "1"; PyStr "2"; PyStr "1"; PyStr "1"])].

Definition consistency_example : DataFrame :=
  mkDataFrame 4
    [("WDPAID", [PyFloat 1; PyFloat 1; PyFloat 2; PyFloat nan]);
     ("WDPA_PID", [PyStr "1_A"; PyStr "1_B"; PyStr "2"; PyStr "3"]);
     ("NAME", [PyStr "a"; PyStr "b"; PyStr "c"; PyStr "d"])].

(** A cell holds a forbidden character. *)
Definition has_forbidden (v : pyobj) : bool :=
  match v with
  | PyStr t => contains_any forbidden_characters t
  | _ => false
  end.

(** Row [i], whose cell in the checked field is [v], has no missing value
    in any column and a forbidden character in [v]. *)
Definition forbidden_row (df : DataFrame) (i : nat) (v : pyobj) : bool :=
  negb (row_has_na df i) && has_forbidden v.

Definition text_or_missing (v : pyobj) : bool :=
  match v with
  | PyStr _ => true
  | _ => isna v
  end.

(** A column with a text in it: a column of objects. *)
Definition holds_text (s : Series) : bool :=
  existsb (fun v => match v with PyStr _ => true | _ => false end) s.

(** [c] is a sub-sequence of [l]: some of the elements of [l], in the
    order they have in [l]. *)
Inductive subseq {A : Type} : list A -> list A -> Prop :=
| subseq_nil : subseq [] []
| subseq_take (x : A) (c l : list A) : subseq c l -> subseq (x :: c) (x :: l)
| subseq_skip (x : A) (c l : list A) : subseq c l -> subseq c (x :: l).

Definition forbidden_example : DataFrame :=
  mkDataFrame 3
    [("WDPA_PID", [PyStr "1"; PyStr "2"; PyStr "3"]);
     ("NAME", [PyStr "A*B"; PyStr "plain"; PyStr "why?"]);
     ("SUB_LOC", [PyNone; PyStr "x"; PyStr "y"])].

(** How many times a character occurs in a string. *)
Definition count_char (c : ascii) (s : string) : nat :=
  List.length (filter (Ascii.eqb c) (list_ascii_of_string s)).

(** The values [invalid_status_yr] allows in the year [year]. *)
Definition status_yr_allowed (year : nat) : list pyobj :=
  strs (map str_of_nat (0 :: seq 1750 (year + 1 - 1750))).

Definition status_yr_example : DataFrame :=
  mkDataFrame 4
    [("WDPA_PID", [PyStr "1"; PyStr "2"; PyStr "3"; PyStr "4"]);
     ("STATUS_YR", [PyStr "0"; PyStr "2019"; PyStr "2020"; PyFloat 1990])].

Definition status_yr_example_records : list member_record :=
  [mk_member_record (PyStr "1") (PyStr "0") PyNone;
   mk_member_record (PyStr "2") (PyStr "2019") PyNone;
   mk_member_record (PyStr "3") (PyStr "2020") PyNone;
   mk_member_record (PyStr "4") (PyFloat 1990) PyNone].

(** *** NO_TAKE = 'All' against the two marine areas *)

Record no_take_record : Type := mk_no_take_record {
  no_take_pid : pyobj;
  no_take_value : pyobj;
  no_take_rep_m_area : pyobj;
  no_take_no_tk_area : pyobj
}.

Definition no_take_offends (r : no_take_record) : bool :=
  cmp_eq (no_take_value r) (PyStr "All")
  && cmp_ne (no_take_rep_m_area r) (no_take_no_tk_area r).

Definition no_take_example : DataFrame :=
  mkDataFrame 4
    [("WDPA_PID", [PyStr "1"; PyStr "2"; PyStr "3"; PyStr "4"]);
     ("NO_TAKE", [PyStr "All"; PyStr "All"; PyStr "Part"; PyStr "All"]);
     ("REP_M_AREA", [PyFloat 5; PyFloat nan; PyFloat 5; PyFloat 5]);
     ("NO_TK_AREA", [PyFloat 5; PyFloat nan; PyFloat 1; PyFloat 2])].

Definition no_take_example_records : list no_take_record :=
  [mk_no_take_record (PyStr "1") (PyStr "All") (PyFloat 5) (PyFloat 5);
   mk_no_take_record (PyStr "2") (PyStr "All") (PyFloat nan) (PyFloat nan);
   mk_no_take_record (PyStr "3") (PyStr "Part") (PyFloat 5) (PyFloat 1);
   mk_no_take_record (PyStr "4") (PyStr "All") (PyFloat 5) (PyFloat 2)].

(** *** One area against a larger one *)

Record size_record : Type := mk_size_record {
  size_pid : pyobj;
  small_area : float;
  large_area : float
}.

(** The supposedly smaller area exceeds the larger one by more than the
    rounding margin. *)
Definition oversize (r : size_record) : bool :=
  (1.0001 * large_area r <? small_area r)%float.

Definition size_example : DataFrame :=
  mkDataFrame 5
    [("WDPA_PID", [PyStr "1"; PyStr "2"; PyStr "3"; PyStr "4"; PyStr "5"]);
     ("GIS_M_AREA",
      [PyFloat 5; PyFloat 10.002; PyFloat 1; PyFloat nan; PyFloat 10.0005]);
     ("GIS_AREA", [PyFloat 10; PyFloat 10; PyFloat 0; PyFloat 10; PyFloat 10])].

Definition size_example_records : list size_record :=
  [mk_size_record (PyStr "1") 5 10;
   mk_size_record (PyStr "2") 10.002 10;
   mk_size_record (PyStr "3") 1 0;
   mk_size_record (PyStr "4") nan 10;
   mk_size_record (PyStr "5") 10.0005 10].

(** *** An area at or below a threshold, under a condition *)

Record zero_area_record : Type := mk_zero_area_record {
  zero_area_pid : pyobj;
  zero_area : float;
  zero_area_cond : pyobj
}.

Definition zero_area_offends (threshold : float) (condition_crit : list pyobj)
           (r : zero_area_record) : bool :=
  (zero_area r <=? threshold)%float && mem (zero_area_cond r) condition_crit.

Definition zero_area_example : DataFrame :=
  mkDataFrame 4
    [("WDPA_PID", [PyStr "1"; PyStr "2"; PyStr "3"; PyStr "4"]);
     ("REP_M_AREA", [PyFloat 0; PyFloat 0; PyFloat nan; PyFloat 0]);
     ("MARINE", [PyStr "1"; PyStr "0"; PyStr "2"; PyFloat 1])].

Definition zero_area_example_records : list zero_area_record :=
  [mk_zero_area_record (PyStr "1") 0 (PyStr "1");
   mk_zero_area_record (PyStr "2") 0 (PyStr "0");
   mk_zero_area_record (PyStr "3") nan (PyStr "2");
   mk_zero_area_record (PyStr "4") 0 (PyFloat 1)].

(** *** Membership, the condition negated *)

(** A record offends [invalid_value_in_field_isnot] when its value is
    outside the allowed set and the condition, if there is one, does not
    hold for it. *)
Definition member_offends_isnot (allowed : list pyobj) (condition_field : string)
           (condition_crit : list pyobj) (r : member_record) : bool :=
  negb (mem (member_value r) allowed)
  && (negb (conditioned condition_field condition_crit)
      || negb (mem (member_cond r) condition_crit)).

Definition marine_named_example : DataFrame :=
  mkDataFrame 2
    [("WDPA_PID", [PyStr "1"; PyStr "2"]);
     ("NAME", [PyStr "A*"; PyStr "B?"]);
     ("GIS_M_AREA", [PyFloat 0; PyFloat 1]);
     ("GIS_AREA", [PyFloat 0; PyFloat 10]);
     ("MARINE", [PyStr "0"; PyStr "0"])].

Definition marine_named_example_records : list marine_record :=
  [mk_marine_record (PyStr "1") 0 0 (PyStr "0");
   mk_marine_record (PyStr "2") 1 10 (PyStr "0")].

Definition reported_too_large : DataFrame :=
  mkDataFrame 3
    [("WDPA_PID", [PyStr "1"; PyStr "2"; PyStr "3"]);
     ("REP_AREA", [PyFloat 10; PyFloat 20; PyFloat 1000]);
     ("GIS_AREA", [PyFloat 10; PyFloat 20; PyFloat 10])].

(** The records of [reported_too_large], GIS_AREA as the area that
    divides. *)
Definition reported_too_large_records : list area_record :=
  [mk_area_record (PyStr "1") 10 10;
   mk_area_record (PyStr "2") 20 20;
   mk_area_record (PyStr "3") 10 1000].



(** * Properties *)

(** ** IEEE-754 facts the checks rely on *)

Module FloatFacts.

Lemma SFcompare_refl (s : spec_float) : s <> S754_nan -> SFcompare s s = Some Eq.
Proof.
  destruct s as [sg | sg | | sg m e]; intros H; try congruence; simpl.
  - reflexivity.
  - destruct sg; reflexivity.
  - rewrite Z.compare_refl, Pos.compare_cont_refl. destruct sg; reflexivity.
Qed.

Lemma is_nan_spec (x : float) : is_nan x = true <-> Prim2SF x = S754_nan.
Proof.
  unfold is_nan. rewrite FloatAxioms.eqb_spec. unfold SFeqb. split.
  - intros H. destruct (Prim2SF x) eqn:E; try reflexivity;
      rewrite SFcompare_refl in H by congruence; discriminate.
  - intros ->. reflexivity.
Qed.

Lemma SFcompare_Eq_finite s1 m1 e1 s2 m2 e2 :
  SFcompare (S754_finite s1 m1 e1) (S754_finite s2 m2 e2) = Some Eq ->
  s1 = s2 /\ m1 = m2 /\ e1 = e2.
Proof.
  simpl. destruct s1, s2; try discriminate;
    destruct (Z.compare_spec e1 e2); try discriminate; subst;
    intros H; injection H as H.
  - apply CompOpp_iff in H. simpl in H. apply Pos.compare_eq in H. auto.
  - apply Pos.compare_eq in H. auto.
Qed.




Lemma nan_leb_l x c : is_nan x = true -> (x <=? c)%float = false.
Proof. rewrite is_nan_spec, FloatAxioms.leb_spec. intros ->. reflexivity. Qed.

Lemma nan_ltb_l x c : is_nan x = true -> (x <? c)%float = false.
Proof. rewrite is_nan_spec, FloatAxioms.ltb_spec. intros ->. reflexivity. Qed.

Lemma nan_leb_r x c : is_nan x = true -> (c <=? x)%float = false.
Proof.
  rewrite is_nan_spec, FloatAxioms.leb_spec. intros ->. unfold SFleb.
  destruct (Prim2SF c); reflexivity.
Qed.

Lemma nan_ltb_r x c : is_nan x = true -> (c <? x)%float = false.
Proof.
  rewrite is_nan_spec, FloatAxioms.ltb_spec. intros ->. unfold SFltb.
  destruct (Prim2SF c); reflexivity.
Qed.

Lemma div_nan_l x y : is_nan x = true -> is_nan (x / y) = true.
Proof. rewrite !is_nan_spec, FloatAxioms.div_spec. intros ->. reflexivity. Qed.

Lemma div_nan_r x y : is_nan y = true -> is_nan (x / y) = true.
Proof.
  rewrite !is_nan_spec, FloatAxioms.div_spec. intros ->. unfold SF64div, SFdiv.
  destruct (Prim2SF x); reflexivity.
Qed.

Lemma eqb_zero_spec x : (x =? 0)%float = true -> exists s, Prim2SF x = S754_zero s.
Proof.
  rewrite FloatAxioms.eqb_spec. change (Prim2SF 0) with (S754_zero false).
  unfold SFeqb. destruct (Prim2SF x) as [s | s | | s m e]; simpl; try discriminate.
  - eauto.
  - destruct s; discriminate.
  - destruct s; discriminate.
Qed.

Lemma div_zero_zero x y :
  (x =? 0)%float = true -> (y =? 0)%float = true -> is_nan (x / y) = true.
Proof.
  intros Hx Hy. apply eqb_zero_spec in Hx, Hy.
  destruct Hx as [sx Hx], Hy as [sy Hy].
  rewrite is_nan_spec, FloatAxioms.div_spec, Hx, Hy. reflexivity.
Qed.

Lemma SFcompare_antisym x y c :
  SFcompare x y = Some c -> SFcompare y x = Some (CompOpp c).
Proof.
  destruct x as [sx | sx | | sx mx ex], y as [sy | sy | | sy my ey]; simpl;
    try discriminate; intros H; injection H as <-.
  all: try (destruct sx; reflexivity).
  all: try (destruct sy; reflexivity).
  all: try (destruct sx, sy; reflexivity).
  rewrite (Z.compare_antisym ey ex).
  destruct sx, sy; simpl; try reflexivity; destruct (ey ?= ex)%Z; simpl;
    try reflexivity;
    rewrite Pos.compare_cont_antisym; simpl; rewrite ?CompOpp_involutive;
    reflexivity.
Qed.





(** What lies above a positive finite number is positive, finite or
    infinite. *)
Lemma SFltb_pos (m : positive) (e : Z) (x : spec_float) :
  SFltb (S754_finite false m e) x = true ->
  x = S754_infinity false \/ exists m' e', x = S754_finite false m' e'.
Proof.
  unfold SFltb. destruct x as [s | s | | s m' e']; simpl; try discriminate.
  - destruct s; [discriminate | auto].
  - destruct s; [discriminate | eauto].
Qed.

(** A zero denominator: for [A = 0] and [B > 50] the ratio [(A + B) / A]
    is plus infinity and [abs(B - A)] is [B]. *)
Lemma zero_denominator (b : float) :
  (50 <? b)%float = true ->
  Prim2SF ((0 + b) / 0) = S754_infinity false
  /\ (50 <? abs (b - 0))%float = true.
Proof.
  intros H. pose proof H as H'. rewrite FloatAxioms.ltb_spec in H'.
  change (Prim2SF 50) with (S754_finite false 7036874417766400 (-47)) in H'.
  apply SFltb_pos in H'.
  split.
  - rewrite FloatAxioms.div_spec, FloatAxioms.add_spec. change (Prim2SF 0) with (S754_zero false).
    destruct H' as [-> | (m' & e' & ->)]; reflexivity.
  - rewrite FloatAxioms.ltb_spec, FloatAxioms.abs_spec, FloatAxioms.sub_spec. rewrite FloatAxioms.ltb_spec in H.
    change (Prim2SF 0) with (S754_zero false).
    destruct H' as [E | (m' & e' & E)]; rewrite E in *; exact H.
Qed.

Lemma ltb_infinity (x y : float) :
  Prim2SF y = S754_infinity false -> (x <? y)%float = (x <? infinity)%float.
Proof. intros E. rewrite !FloatAxioms.ltb_spec, E. reflexivity. Qed.

End FloatFacts.

(** ** Columns, masks and the monad *)

Lemma series_binop_of_float64 (op : float -> float -> float) (x y : list float) :
  series_binop op (of_float64 x) (of_float64 y) = Ok (map2 op x y).
Proof.
  unfold series_binop, of_float64.
  revert y. induction x as [| a x IH]; intros [| b y]; simpl; try reflexivity.
  now rewrite IH.
Qed.

Lemma series_compare_of_float64 (cmp : float -> float -> bool) (x y : list float) :
  series_compare cmp (of_float64 x) (of_float64 y) = Ok (map2 cmp x y).
Proof.
  unfold series_compare, of_float64.
  revert y. induction x as [| a x IH]; intros [| b y]; simpl; try reflexivity.
  now rewrite IH.
Qed.

Lemma series_le_scalar_of_float64 (l : list float) (c : float) :
  series_le_scalar (of_float64 l) c = Ok (map (fun v => (v <=? c)%float) l).
Proof.
  unfold series_le_scalar, of_float64.
  induction l as [| a l IH]; simpl; [reflexivity | now rewrite IH].
Qed.

Lemma scalar_arith_of_float64 (op : float -> float -> float) (c : float)
      (l : list float) :
  mapM (arith op (PyFloat c)) (of_float64 l) = Ok (map (op c) l).
Proof.
  unfold of_float64.
  induction l as [| a l IH]; simpl; [reflexivity | now rewrite IH].
Qed.

Lemma select_map {A B : Type} (f : A -> bool) (g : A -> B) (l : list A) :
  select (map f l) (map g l) = map g (filter f l).
Proof.
  induction l as [| x l IH]; simpl; [reflexivity |].
  destruct (f x); simpl; now rewrite IH.
Qed.

Lemma map2_map {A B C D : Type} (f : B -> C -> D) (g : A -> B) (h : A -> C)
      (l : list A) :
  map2 f (map g l) (map h l) = map (fun x => f (g x) (h x)) l.
Proof. induction l as [| x l IH]; simpl; [reflexivity | now rewrite IH]. Qed.

Lemma lookup_boolean_index (df : DataFrame) (mask : list bool) (name : string) :
  lookup name (columns (boolean_index df mask))
  = option_map (select mask) (lookup name (columns df)).
Proof.
  unfold boolean_index; simpl.
  induction (columns df) as [| [n s] cols IH]; simpl; [reflexivity |].
  destruct (String.eqb n name); [reflexivity | exact IH].
Qed.

Lemma lookup_assign_same (name : string) (s : Series) (cols : list (string * Series)) :
  lookup name (assign name s cols) = Some s.
Proof.
  induction cols as [| [n c] cols IH]; simpl.
  - now rewrite String.eqb_refl.
  - destruct (String.eqb n name) eqn:E; simpl; rewrite E; [reflexivity | exact IH].
Qed.

Lemma lookup_assign_other (name other : string) (s : Series)
      (cols : list (string * Series)) :
  String.eqb name other = false ->
  lookup other (assign name s cols) = lookup other cols.
Proof.
  intros Hne. induction cols as [| [n c] cols IH]; simpl.
  - now rewrite Hne.
  - destruct (String.eqb n name) eqn:E; simpl.
    + apply String.eqb_eq in E; subst n. now rewrite Hne.
    + destruct (String.eqb n other); [reflexivity | exact IH].
Qed.

Lemma length_report_positive {A : Type} (a : list A) :
  (0 <? List.length a)%nat = negb (is_empty a).
Proof. destruct a; reflexivity. Qed.


Arguments boolean_index : simpl never.

(** Running a check: unfold the monad and replace each column lookup by
    the column the hypotheses give. *)
Ltac step_lookup :=
  match goal with
  | H : lookup ?n (columns ?df) = Some _ |- context [lookup ?n (columns ?df)] =>
      rewrite H
  end.

Ltac run_check :=
  unfold wdpa_pid_where;
  unfold bind, this, lift, ret, raise, getitem, frame_getitem;
  cbv beta iota;
  repeat (step_lookup; cbv beta iota).

(** ** The library's sum *)

(** The length of the array is depth enough for [pairwise_sum_rec]: a
    greater depth gives the same sum. *)
Lemma pairwise_sum_rec_depth (d1 d2 : nat) (a : list float) :
  List.length a <= d1 -> List.length a <= d2 ->
  pairwise_sum_rec d1 a = pairwise_sum_rec d2 a.
Proof.
  revert d2 a. induction d1 as [| d1 IH]; intros d2 a H1 H2.
  - destruct a; [| simpl in H1; lia]. destruct d2; reflexivity.
  - destruct d2 as [| d2].
    + destruct a; [| simpl in H2; lia]. reflexivity.
    + cbn [pairwise_sum_rec]. cbv zeta.
      destruct (List.length a <? 8)%nat; [reflexivity |].
      destruct (Nat.leb_spec (List.length a) PW_BLOCKSIZE) as [Hle | Hgt];
        [reflexivity |].
      unfold PW_BLOCKSIZE in Hgt.
      set (n := List.length a) in *.
      pose proof (Nat.div_mod_eq n 2) as Hdiv.
      pose proof (Nat.mod_upper_bound n 2 ltac:(lia)) as Hmod.
      pose proof (Nat.mod_upper_bound (n / 2) 8 ltac:(lia)) as Hmod8.
      f_equal; apply IH; rewrite ?length_firstn, ?length_skipn; fold n; lia.
Qed.

(** ** C1: the statistical area-plausibility rule *)

Lemma np_select_outliers (f g : float -> bool) (calc : list float) :
  np_select [map f calc; map g calc] [nan; nan] calc
  = map (fun c => if f c then nan else if g c then nan else c) calc.
Proof.
  induction calc as [| c calc IH]; simpl; [reflexivity |].
  f_equal. exact IH.
Qed.

Lemma is_nan_eq (c : float) : is_nan c = true -> c = nan.
Proof.
  intros H. apply FloatAxioms.Prim2SF_inj.
  apply FloatFacts.is_nan_spec in H. rewrite H. reflexivity.
Qed.

Lemma statistics_population (c : float) :
  (if (100 <? c)%float then nan else if (c <? 0)%float then nan else c)
  = (if in_statistics c then c else nan).
Proof.
  unfold in_statistics.
  destruct (100 <? c)%float; [reflexivity |].
  destruct (c <? 0)%float; [reflexivity |]. simpl.
  destruct (is_nan c) eqn:E; [now apply is_nan_eq | reflexivity].
Qed.

Lemma max_relative_size_spec (recs : list area_record) :
  max_relative_size (map (fun r => ratio (area_A r) (area_B r)) recs)
  = spec_max_ratio recs.
Proof.
  unfold max_relative_size, spec_max_ratio, statistics_of.
  rewrite np_select_outliers, map_map.
  erewrite map_ext; [reflexivity |].
  intros r. apply statistics_population.
Qed.

Lemma relative_size_of_gis (df : DataFrame) (recs : list area_record) :
  lookup "REP_AREA" (columns df) = Some (of_float64 (map area_A recs)) ->
  lookup "GIS_AREA" (columns df) = Some (of_float64 (map area_B recs)) ->
  relative_size_of "REP_AREA" "GIS_AREA" "REP_AREA" df
  = (Ok (map (fun r => ratio (area_A r) (area_B r)) recs), df).
Proof.
  intros HA HB. unfold relative_size_of. run_check.
  rewrite series_binop_of_float64. cbv beta iota.
  rewrite ?HA, ?HB. cbv beta iota.
  rewrite series_binop_of_float64.
  rewrite !map2_map. reflexivity.
Qed.

Lemma area_invalid_too_large_gis_run (df : DataFrame) (recs : list area_record)
      (return_pid : bool) :
  lookup "WDPA_PID" (columns df) = Some (map area_pid recs) ->
  lookup "REP_AREA" (columns df) = Some (of_float64 (map area_A recs)) ->
  lookup "GIS_AREA" (columns df) = Some (of_float64 (map area_B recs)) ->
  area_invalid_too_large_gis return_pid df
  = (Ok (report (map area_pid (filter (spec_flagged (spec_max_ratio recs)) recs))
                return_pid), df).
Proof.
  intros HP HA HB.
  unfold area_invalid_too_large_gis, area_invalid_too_large.
  unfold bind at 1. rewrite (relative_size_of_gis df recs HA HB).
  unfold bind at 1. rewrite (relative_size_of_gis df recs HA HB).
  rewrite max_relative_size_spec.
  run_check.
  rewrite series_binop_of_float64. cbv beta iota.
  rewrite lookup_boolean_index, HP. simpl.
  unfold mask_and. rewrite map2_map, !map_map, map2_map.
  rewrite select_map. reflexivity.
Qed.




(** ** C5: a zero denominator *)

(** A lone record with REP_AREA = 0 and GIS_AREA = 100: the absolute
    difference exceeds 50, the threshold is NaN because no ratio takes
    part in the statistics, and the record is not flagged. *)
Lemma zero_denominator_alone_not_flagged :
  (50 <? abs (100 - 0))%float = true
  /\ is_nan (spec_max_ratio [mk_area_record (PyStr "1") 0 100]) = true
  /\ area_invalid_too_large_gis true zero_denominator_alone
     = (Ok (OArray []), zero_denominator_alone).
Proof. repeat split; vm_compute; reflexivity. Qed.

(** C5, amended.  A record with a zero denominator (A = 0) and B > 50 has
    the ratio plus infinity: it takes no part in the statistics, its
    absolute difference exceeds 50, and it is flagged as soon as the
    threshold max_ratio is a number below plus infinity. *)
Theorem zero_denominator_flagged (df : DataFrame) (recs : list area_record)
        (r : area_record) :
  lookup "WDPA_PID" (columns df) = Some (map area_pid recs) ->
  lookup "REP_AREA" (columns df) = Some (of_float64 (map area_A recs)) ->
  lookup "GIS_AREA" (columns df) = Some (of_float64 (map area_B recs)) ->
  In r recs ->
  area_A r = 0%float ->
  (50 <? area_B r)%float = true ->
  (spec_max_ratio recs <? infinity)%float = true ->
  in_statistics (ratio (area_A r) (area_B r)) = false
  /\ (50 <? abs (area_B r - area_A r))%float = true
  /\ exists out,
      area_invalid_too_large_gis true df = (Ok (OArray out), df)
      /\ In (area_pid r) out.
Proof.
  intros HP HA HB Hin Hzero Hb Hmax.
  destruct (FloatFacts.zero_denominator _ Hb) as [Hinf Hguard].
  rewrite Hzero. unfold ratio.
  split; [| split].
  - unfold in_statistics.
    rewrite (FloatFacts.ltb_infinity 100 _ Hinf).
    reflexivity.
  - exact Hguard.
  - eexists. split.
    + exact (area_invalid_too_large_gis_run df recs true HP HA HB).
    + apply in_map, filter_In. split; [exact Hin |].
      unfold spec_flagged, ratio. rewrite Hzero.
      rewrite (FloatFacts.ltb_infinity _ _ Hinf), Hmax. exact Hguard.
Qed.

Lemma zero_denominator_flagged_witness :
  exists out,
    area_invalid_too_large_gis true area_example = (Ok (OArray out), area_example)
    /\ In (PyStr "1") out.
Proof.
  refine (proj2 (proj2
    (zero_denominator_flagged area_example area_example_records
       (mk_area_record (PyStr "1") 0 100)
       eq_refl eq_refl eq_refl _ eq_refl _ _))).
  - left; reflexivity.
  - vm_compute; reflexivity.
  - vm_compute; reflexivity.
Defined.

(** ** C7, C9: the marine classification *)

Lemma mapM_seq_nth_from {A B : Type} (l : list A) (f : nat -> result B)
      (g : A -> B) (k : nat) :
  (forall i x, nth_error l i = Some x -> f (k + i) = Ok (g x)) ->
  mapM f (seq k (List.length l)) = Ok (map g l).
Proof.
  revert k. induction l as [| a l IH]; intros k H; simpl; [reflexivity |].
  rewrite <- (Nat.add_0_r k) at 1. rewrite (H 0 a eq_refl). simpl.
  rewrite (IH (S k)); [reflexivity |].
  intros i x Hi. replace (S k + i) with (k + S i) by lia.
  now apply (H (S i)).
Qed.

Lemma mapM_seq_nth {A B : Type} (l : list A) (f : nat -> result B) (g : A -> B) :
  (forall i x, nth_error l i = Some x -> f i = Ok (g x)) ->
  mapM f (seq 0 (List.length l)) = Ok (map g l).
Proof. intros H. now apply mapM_seq_nth_from. Qed.

(** The function applied to each row computes the band of the row's
    proportion. *)
Lemma assign_marine_gis_value_band (w : row) (p : float) :
  w "marine_GIS_proportion" = Ok (PyFloat p) ->
  assign_marine_gis_value w = Ok (band p).
Proof.
  intros Hw. unfold assign_marine_gis_value, band, coast_min, coast_max.
  rewrite Hw. simpl.
  destruct (p <=? 0.1)%float; [reflexivity |].
  destruct ((0.1 <? p)%float && (p <? 0.9)%float); [reflexivity |].
  destruct (0.9 <=? p)%float; reflexivity.
Qed.

Lemma apply_axis1_marine (df : DataFrame) (props : list float) :
  lookup "marine_GIS_proportion" (columns df) = Some (of_float64 props) ->
  index_size df = List.length props ->
  apply_axis1 assign_marine_gis_value df = Ok (map band props).
Proof.
  intros Hcol Hn. unfold apply_axis1. rewrite Hn.
  apply mapM_seq_nth. intros i x Hi.
  apply assign_marine_gis_value_band.
  unfold row_at. rewrite Hcol. unfold of_float64.
  now rewrite (map_nth_error PyFloat i props Hi).
Qed.

Lemma area_invalid_marine_run (df : DataFrame) (recs : list marine_record)
      (return_pid : bool) :
  index_size df = List.length recs ->
  lookup "WDPA_PID" (columns df) = Some (map marine_pid recs) ->
  lookup "GIS_M_AREA" (columns df) = Some (of_float64 (map gis_m_area recs)) ->
  lookup "GIS_AREA" (columns df) = Some (of_float64 (map gis_area recs)) ->
  lookup "MARINE" (columns df) = Some (map marine recs) ->
  area_invalid_marine return_pid df
  = (Ok (report (map marine_pid (filter marine_mismatch recs)) return_pid),
     with_marine_columns df
       (map (fun r => (gis_m_area r / gis_area r)%float) recs)).
Proof.
  intros Hn HP HM HG HMar.
  unfold area_invalid_marine, setitem. run_check.
  rewrite series_binop_of_float64. cbv beta iota.
  rewrite map2_map.
  set (props := map (fun r => (gis_m_area r / gis_area r)%float) recs).
  rewrite (apply_axis1_marine _ props).
  - cbv beta iota. cbn [columns index_size].
    rewrite lookup_assign_same.
    rewrite !lookup_assign_other by reflexivity. rewrite HMar.
    cbv beta iota.
    rewrite lookup_boolean_index. cbn [columns].
    rewrite !lookup_assign_other by reflexivity. rewrite HP.
    cbn [option_map]. unfold with_marine_columns, props.
    rewrite map_map, map2_map, select_map. reflexivity.
  - cbn [columns]. apply lookup_assign_same.
  - cbn [index_size]. unfold props. now rewrite length_map.
Qed.




Lemma band_undefined (r : float) : is_nan r = true -> band r = PyNone.
Proof.
  intros H. unfold band.
  rewrite (FloatFacts.nan_leb_l _ _ H), (FloatFacts.nan_ltb_r _ _ H),
    (FloatFacts.nan_leb_r _ _ H).
  reflexivity.
Qed.



(** C9.  A record whose marine ratio is undefined - GIS_M_AREA and
    GIS_AREA both zero, or either of them NaN - has no band ([None]), and
    is flagged whatever its MARINE value. *)
Theorem undefined_marine_ratio_flagged (df : DataFrame) (recs : list marine_record)
        (r : marine_record) :
  index_size df = List.length recs ->
  lookup "WDPA_PID" (columns df) = Some (map marine_pid recs) ->
  lookup "GIS_M_AREA" (columns df) = Some (of_float64 (map gis_m_area recs)) ->
  lookup "GIS_AREA" (columns df) = Some (of_float64 (map gis_area recs)) ->
  lookup "MARINE" (columns df) = Some (map marine recs) ->
  In r recs ->
  ((gis_m_area r =? 0)%float = true /\ (gis_area r =? 0)%float = true)
  \/ is_nan (gis_m_area r) = true \/ is_nan (gis_area r) = true ->
  band (gis_m_area r / gis_area r)%float = PyNone
  /\ marine_mismatch r = true
  /\ exists out,
      fst (area_invalid_marine true df) = Ok (OArray out)
      /\ In (marine_pid r) out.
Proof.
  intros Hn HP HM HG HMar Hin Hundef.
  assert (Hnan : is_nan (gis_m_area r / gis_area r)%float = true).
  { destruct Hundef as [[H1 H2] | [H | H]].
    - now apply FloatFacts.div_zero_zero.
    - now apply FloatFacts.div_nan_l.
    - now apply FloatFacts.div_nan_r. }
  assert (Hband : band (gis_m_area r / gis_area r)%float = PyNone)
    by now apply band_undefined.
  assert (Hflag : marine_mismatch r = true)
    by (unfold marine_mismatch; now rewrite Hband).
  split; [exact Hband | split; [exact Hflag |]].
  eexists. split.
  - now rewrite (area_invalid_marine_run df recs true Hn HP HM HG HMar).
  - apply in_map, filter_In. now split.
Qed.

Lemma undefined_marine_ratio_flagged_witness :
  exists out,
    fst (area_invalid_marine true marine_example) = Ok (OArray out)
    /\ In (PyStr "1") out.
Proof.
  refine (proj2 (proj2
    (undefined_marine_ratio_flagged marine_example marine_example_records
       (mk_marine_record (PyStr "1") 0 0 (PyStr "0"))
       eq_refl eq_refl eq_refl eq_refl eq_refl _ _))).
  - left; reflexivity.
  - left; split; reflexivity.
Defined.

(** ** C8: the membership rule *)

Lemma py_same_refl (v : pyobj) : py_same v v = true.
Proof.
  destruct v as [| x | s]; simpl.
  - reflexivity.
  - unfold is_nan. destruct (x =? x)%float; reflexivity.
  - apply String.eqb_refl.
Qed.

Lemma mem_head (v : pyobj) (values : list pyobj) : mem v (v :: values) = true.
Proof. unfold mem; simpl. now rewrite py_same_refl. Qed.

Lemma mem_incl (v : pyobj) (small large : list pyobj) :
  (forall x, In x small -> In x large) ->
  mem v small = true -> mem v large = true.
Proof.
  intros Hincl. unfold mem. rewrite !existsb_exists.
  intros (x & Hx & Hsame). exists x. auto.
Qed.

Lemma invalid_value_in_field_run (df : DataFrame) (recs : list member_record)
      (field : string) (allowed : list pyobj) (condition_field : string)
      (condition_crit : list pyobj) (return_pid : bool) :
  lookup "WDPA_PID" (columns df) = Some (map member_pid recs) ->
  lookup field (columns df) = Some (map member_value recs) ->
  (conditioned condition_field condition_crit = true ->
   lookup condition_field (columns df) = Some (map member_cond recs)) ->
  invalid_value_in_field field allowed condition_field condition_crit return_pid df
  = (Ok (report (map member_pid
                     (filter (member_offends allowed condition_field condition_crit)
                             recs)) return_pid), df).
Proof.
  intros HP HF HC. unfold invalid_value_in_field, member_offends.
  fold (conditioned condition_field condition_crit).
  destruct (conditioned condition_field condition_crit) eqn:Econd.
  - specialize (HC eq_refl). run_check.
    rewrite lookup_boolean_index, HP. cbn [option_map].
    unfold mask_and, mask_not, isin. rewrite !map_map, map2_map, select_map.
    reflexivity.
  - run_check.
    rewrite lookup_boolean_index, HP. cbn [option_map].
    unfold mask_not, isin. rewrite !map_map, select_map.
    erewrite filter_ext; [reflexivity |].
    intros r. simpl. now rewrite andb_true_r.
Qed.

(** C8.  For any allowed set S the membership rule returns the
    identifiers of the records that offend under S; a record does not
    offend once its own value is added to S, a record that does not
    offend under S does not offend under a superset of S, and so the
    identifiers returned for a superset are among those returned for S. *)
Theorem invalid_value_in_field_antitone (df : DataFrame) (recs : list member_record)
        (field condition_field : string) (condition_crit : list pyobj) :
  lookup "WDPA_PID" (columns df) = Some (map member_pid recs) ->
  lookup field (columns df) = Some (map member_value recs) ->
  (conditioned condition_field condition_crit = true ->
   lookup condition_field (columns df) = Some (map member_cond recs)) ->
  let offends S := member_offends S condition_field condition_crit in
  let offending S := map member_pid (filter (offends S) recs) in
  (forall S,
      fst (invalid_value_in_field field S condition_field condition_crit true df)
      = Ok (OArray (offending S)))
  /\ (forall S r, In r recs -> offends (member_value r :: S) r = false)
  /\ (forall S r, In r recs ->
                  ~ In r (filter (offends (member_value r :: S)) recs))
  /\ (forall S S' r,
         (forall x, In x S -> In x S') ->
         offends S r = false -> offends S' r = false)
  /\ (forall S S' p,
         (forall x, In x S -> In x S') ->
         In p (offending S') -> In p (offending S)).
Proof.
  intros HP HF HC offends offending.
  assert (Hadd : forall S r, offends (member_value r :: S) r = false).
  { intros S r. unfold offends, member_offends. now rewrite mem_head. }
  assert (Hmono : forall S S' r,
             (forall x, In x S -> In x S') ->
             offends S r = false -> offends S' r = false).
  { intros S S' r Hincl. unfold offends, member_offends.
    destruct (mem (member_value r) S) eqn:E; simpl.
    - now rewrite (mem_incl _ _ _ Hincl E).
    - intros ->. apply andb_false_r. }
  split; [| split; [| split; [| split]]].
  - intros S.
    now rewrite (invalid_value_in_field_run df recs field S condition_field
                   condition_crit true HP HF HC).
  - intros S r _. apply Hadd.
  - intros S r _ Hin. apply filter_In in Hin. destruct Hin as [_ Hoff].
    now rewrite Hadd in Hoff.
  - exact Hmono.
  - intros S S' p Hincl Hin. unfold offending in *.
    apply in_map_iff in Hin. destruct Hin as (r & <- & Hr).
    apply filter_In in Hr. destruct Hr as [Hr Hoff].
    apply in_map, filter_In. split; [exact Hr |].
    destruct (offends S r) eqn:E; [reflexivity |].
    now rewrite (Hmono S S' r Hincl E) in Hoff.
Qed.

Lemma invalid_value_in_field_antitone_witness :
  fst (invalid_value_in_field "DESIG_TYPE" [PyStr "National"; PyStr "Local"]
         "MARINE" [PyStr "1"] true membership_example)
  = Ok (OArray (map member_pid
                    (filter (member_offends [PyStr "National"; PyStr "Local"]
                                            "MARINE" [PyStr "1"])
                            membership_example_records))).
Proof.
  exact (proj1
    (invalid_value_in_field_antitone membership_example membership_example_records
       "DESIG_TYPE" "MARINE" [PyStr "1"] eq_refl eq_refl (fun _ => eq_refl))
    [PyStr "National"; PyStr "Local"]).
Defined.

(** ** C10: country codes with an empty component *)

Lemma str_split_nonempty (sep : ascii) (s : string) : str_split sep s <> [].
Proof.
  destruct s as [| c s]; simpl; [discriminate |].
  destruct (Ascii.eqb c sep); [discriminate |].
  destruct (str_split sep s); discriminate.
Qed.

(** Splitting distributes over a separator. *)
Lemma str_split_app (sep : ascii) (a b : string) :
  str_split sep (a ++ String sep b) = (str_split sep a ++ str_split sep b)%list.
Proof.
  induction a as [| c a IH]; simpl.
  - now rewrite Ascii.eqb_refl.
  - destruct (Ascii.eqb c sep); [now rewrite IH |].
    rewrite IH.
    destruct (str_split sep a) as [| w ws] eqn:E; [| reflexivity].
    now apply str_split_nonempty in E.
Qed.

Lemma trailing_separator_empty_component (s : string) :
  has_empty_component (s ++ ";").
Proof.
  unfold has_empty_component. rewrite str_split_app.
  apply in_or_app. right. now left.
Qed.

Lemma doubled_separator_empty_component (a b : string) :
  has_empty_component (a ++ ";;" ++ b).
Proof.
  unfold has_empty_component.
  change (a ++ ";;" ++ b) with (a ++ String ";" (String ";" b)).
  rewrite str_split_app. apply in_or_app. right.
  simpl. now left.
Qed.

Lemma empty_not_in_iso3 (codes : list string) :
  Forall (fun c => String.length c = 3) codes ->
  existsb (String.eqb "") (iso3 codes) = false.
Proof.
  intros Hcodes. unfold iso3. rewrite existsb_app. simpl.
  rewrite orb_false_r.
  induction Hcodes as [| c codes Hc _ IH]; simpl; [reflexivity |].
  rewrite IH, orb_false_r. destruct c; [discriminate Hc | reflexivity].
Qed.

Lemma all_in_iso3_missing (codes : list string) (each : string) (parts : list string) :
  In each parts ->
  existsb (String.eqb each) (iso3 codes) = false ->
  all_in_iso3 codes parts = false.
Proof.
  intros Hin Hmiss. induction parts as [| p parts IH]; [destruct Hin |].
  simpl. destruct Hin as [-> | Hin].
  - now rewrite Hmiss.
  - destruct (existsb (String.eqb p) (iso3 codes)); [now apply IH | reflexivity].
Qed.

Lemma mapM_ok_map {A B C : Type} (f : B -> result C) (g : A -> B) (h : A -> C)
      (l : list A) :
  (forall x, f (g x) = Ok (h x)) -> mapM f (map g l) = Ok (map h l).
Proof.
  intros H. induction l as [| x l IH]; simpl; [reflexivity |].
  now rewrite H, IH.
Qed.

Lemma invalid_country_codes_run (codes : list string) (df : DataFrame)
      (recs : list code_record) (field : string) (return_pid : bool) :
  recs <> [] ->
  lookup "WDPA_PID" (columns df) = Some (map code_pid recs) ->
  lookup field (columns df) = Some (map (fun r => PyStr (code_value r)) recs) ->
  invalid_country_codes codes field return_pid df
  = (Ok (report (map code_pid (filter (codes_invalid codes) recs)) return_pid), df).
Proof.
  intros Hrows HP HF. unfold invalid_country_codes. run_check.
  rewrite (mapM_ok_map (_correct_iso3 codes) _
             (fun r => all_in_iso3 codes (str_split ";" (code_value r))))
    by reflexivity.
  cbv beta iota.
  replace (is_empty (map (fun r => PyStr (code_value r)) recs)) with false
    by (destruct recs; [now elim Hrows | reflexivity]).
  run_check. rewrite lookup_boolean_index, HP. cbn [option_map].
  unfold mask_not. rewrite map_map, select_map. reflexivity.
Qed.

(** X21.  On a frame whose code field holds a text in every record, and
    with a reference list of three-letter codes (plus 'ABNJ'), a record
    whose code field has an empty component is flagged by the
    country-code check; a trailing ';' and a doubled ';;' both give an
    empty component. *)
Theorem empty_component_flagged (codes : list string) (df : DataFrame)
        (recs : list code_record) (field : string) (r : code_record) :
  Forall (fun c => String.length c = 3) codes ->
  lookup "WDPA_PID" (columns df) = Some (map code_pid recs) ->
  lookup field (columns df) = Some (map (fun r => PyStr (code_value r)) recs) ->
  In r recs ->
  has_empty_component (code_value r) ->
  _correct_iso3 codes (PyStr (code_value r)) = Ok false
  /\ (exists out,
         fst (invalid_country_codes codes field true df) = Ok (OArray out)
         /\ In (code_pid r) out)
  /\ fst (invalid_country_codes codes field false df) = Ok (OBool true)
  /\ (forall s, has_empty_component (s ++ ";"))
  /\ (forall a b, has_empty_component (a ++ ";;" ++ b)).
Proof.
  intros Hcodes HP HF Hin Hempty.
  assert (Hbad : all_in_iso3 codes (str_split ";" (code_value r)) = false).
  { eapply all_in_iso3_missing; [exact Hempty |]. now apply empty_not_in_iso3. }
  assert (Hflag : In r (filter (codes_invalid codes) recs)).
  { apply filter_In. split; [exact Hin |]. unfold codes_invalid. now rewrite Hbad. }
  assert (Hrows : recs <> []) by (intros ->; destruct Hin).
  split; [| split; [| split; [| split]]].
  - simpl. now rewrite Hbad.
  - eexists. split.
    + now rewrite (invalid_country_codes_run codes df recs field true Hrows HP HF).
    + now apply in_map.
  - rewrite (invalid_country_codes_run codes df recs field false Hrows HP HF).
    cbn [fst]. unfold report. rewrite length_report_positive.
    destruct (filter (codes_invalid codes) recs); [destruct Hflag | reflexivity].
  - exact trailing_separator_empty_component.
  - exact doubled_separator_empty_component.
Qed.

Lemma empty_component_flagged_witness :
  exists out,
    fst (invalid_country_codes ["USA"; "FRA"] "ISO3" true codes_example)
    = Ok (OArray out)
    /\ In (PyStr "2") out.
Proof.
  refine (proj1 (proj2
    (empty_component_flagged ["USA"; "FRA"] codes_example codes_example_records
       "ISO3" (mk_code_record (PyStr "2") "USA;")
       _ eq_refl eq_refl _ _))).
  - repeat constructor.
  - right; left; reflexivity.
  - right; left; reflexivity.
Defined.

(** C10, at a dataset of two records, the first with the code 'USA;' and
    the second with a missing code: the code of record 1 has an empty
    component, yet both country-code checks raise AttributeError, in
    either mode, and flag no record. *)
Theorem empty_component_beside_null_not_flagged (codes : list string)
        (return_pid : bool) :
  has_empty_component "USA;"
  /\ invalid_iso3 codes return_pid code_beside_null
     = (Raise AttributeError, code_beside_null)
  /\ invalid_parent_iso3 codes return_pid code_beside_null
     = (Raise AttributeError, code_beside_null).
Proof.
  split; [exact (trailing_separator_empty_component "USA") |].
  split; reflexivity.
Qed.

(** ** C2: the two modes of a check *)

(** The checks that end in [report] answer, in boolean mode, whether the
    array they return in identifier mode is non-empty. *)
Lemma report_modes_agree (invalid_wdpa_pid : Series) :
  report invalid_wdpa_pid false = OBool (negb (is_empty invalid_wdpa_pid))
  /\ report invalid_wdpa_pid true = OArray invalid_wdpa_pid.
Proof. split; [unfold report; now rewrite length_report_positive | reflexivity]. Qed.

(** C2, at a dataset of one record whose WDPA_PID is missing:
    [duplicate_wdpa_pid] answers True in boolean mode (no distinct
    non-missing value against one row) and returns no duplicated
    identifier. *)
Theorem duplicate_wdpa_pid_modes_disagree :
  duplicate_wdpa_pid false single_null_pid = (Ok (OBool true), single_null_pid)
  /\ duplicate_wdpa_pid true single_null_pid = (Ok (OArray []), single_null_pid).
Proof. split; vm_compute; reflexivity. Qed.

(** ** C3: missing country codes *)

(** C3, at a dataset of one record whose ISO3 and PARENT_ISO3 are
    missing: both country-code checks raise AttributeError, in either
    mode. *)
Theorem invalid_iso3_raises_on_null (codes : list string) (return_pid : bool) :
  fst (invalid_iso3 codes return_pid null_iso3) = Raise AttributeError
  /\ fst (invalid_parent_iso3 codes return_pid null_iso3) = Raise AttributeError.
Proof. split; reflexivity. Qed.

(** ** C6: forbidden characters *)

(** C6, at a dataset of one record whose NAME is 'A*B' and whose SUB_LOC
    is missing: the name is a string with a forbidden character, yet
    [dropna] removes the record before the search and nothing is
    flagged. *)
Theorem forbidden_character_misses_record :
  isna (PyStr "A*B") = false
  /\ contains_any forbidden_characters "A*B" = true
  /\ forbidden_character "NAME" true forbidden_with_other_null
     = (Ok (OArray []), forbidden_with_other_null)
  /\ forbidden_character "NAME" false forbidden_with_other_null
     = (Ok (OBool false), forbidden_with_other_null).
Proof. repeat split; vm_compute; reflexivity. Qed.

(** ** C4: what a check does to the caller's frame *)

Lemma read_only_ret {A : Type} (a : A) : read_only (ret a).
Proof. intros df; reflexivity. Qed.

Lemma read_only_raise {A : Type} (e : exn) : read_only (@raise A e).
Proof. intros df; reflexivity. Qed.

Lemma read_only_lift {A : Type} (r : result A) : read_only (lift r).
Proof. intros df; reflexivity. Qed.

Lemma read_only_this : read_only this.
Proof. intros df; reflexivity. Qed.

Lemma read_only_getitem (name : string) : read_only (getitem name).
Proof. intros df; reflexivity. Qed.

Lemma read_only_bind {A B : Type} (m : Py A) (k : A -> Py B) :
  read_only m -> (forall a, read_only (k a)) -> read_only (bind m k).
Proof.
  intros Hm Hk df. unfold bind. specialize (Hm df).
  destruct (m df) as [[a | e] df']; simpl in Hm; subst df'.
  - apply Hk.
  - reflexivity.
Qed.

Lemma read_only_wdpa_pid_where (mask : list bool) : read_only (wdpa_pid_where mask).
Proof. intros df; reflexivity. Qed.

Create HintDb frame.
#[local] Hint Resolve read_only_ret read_only_raise read_only_lift read_only_this
  read_only_getitem read_only_wdpa_pid_where : frame.

(** A body made of reads, pure steps and branches is read-only. *)
Ltac read_only_body :=
  repeat first
    [ progress cbv zeta
    | apply read_only_bind; [| intros ?]
    | solve [auto with frame]
    | match goal with
      | |- read_only (if ?c then _ else _) => destruct c
      end ].

Lemma read_only_duplicate_wdpa_pid : check_read_only duplicate_wdpa_pid.
Proof. intros [|]; unfold duplicate_wdpa_pid; read_only_body. Qed.

Lemma read_only_relative_size_of (a b d : string) : read_only (relative_size_of a b d).
Proof. unfold relative_size_of; read_only_body. Qed.

#[local] Hint Resolve read_only_relative_size_of : frame.

Lemma read_only_area_invalid_too_large (a b d x y : string) :
  check_read_only (area_invalid_too_large a b d x y).
Proof. intros return_pid; unfold area_invalid_too_large; read_only_body. Qed.

Lemma read_only_area_invalid_le (field : string) (threshold : float) :
  check_read_only (area_invalid_le field threshold).
Proof. intros return_pid; unfold area_invalid_le; read_only_body. Qed.

Lemma read_only_area_invalid_le_when (field : string) (allowed : float)
      (condition_field : string) (condition_crit : list pyobj) :
  check_read_only (area_invalid_le_when field allowed condition_field condition_crit).
Proof. intros return_pid; unfold area_invalid_le_when; read_only_body. Qed.

Lemma read_only_invalid_no_take_no_tk_area_rep_m_area :
  check_read_only invalid_no_take_no_tk_area_rep_m_area.
Proof.
  intros return_pid; unfold invalid_no_take_no_tk_area_rep_m_area; read_only_body.
Qed.

Lemma read_only_invalid_value_in_field (field : string) (allowed : list pyobj)
      (condition_field : string) (condition_crit : list pyobj) :
  check_read_only (invalid_value_in_field field allowed condition_field condition_crit).
Proof. intros return_pid; unfold invalid_value_in_field; read_only_body. Qed.

Lemma read_only_invalid_value_in_field_isnot (field : string) (allowed : list pyobj)
      (condition_field : string) (condition_crit : list pyobj) :
  check_read_only
    (invalid_value_in_field_isnot field allowed condition_field condition_crit).
Proof. intros return_pid; unfold invalid_value_in_field_isnot; read_only_body. Qed.

Lemma read_only_invalid_other (field : string) (allowed : list pyobj)
      (condition_field : string) (condition_crit : list pyobj) :
  check_read_only (invalid_other field allowed condition_field condition_crit).
Proof. intros return_pid; unfold invalid_other; read_only_body. Qed.

Lemma read_only_inconsistent_fields_same_wdpaid (check_field : string) :
  check_read_only (inconsistent_fields_same_wdpaid check_field).
Proof. intros [|]; unfold inconsistent_fields_same_wdpaid; read_only_body. Qed.

Lemma read_only_invalid_country_codes (codes : list string) (field : string) :
  check_read_only (invalid_country_codes codes field).
Proof. intros return_pid; unfold invalid_country_codes; read_only_body. Qed.

Lemma read_only_area_invalid_size (small large : string) :
  check_read_only (area_invalid_size small large).
Proof. intros return_pid; unfold area_invalid_size; read_only_body. Qed.

Lemma read_only_forbidden_character (check_field : string) :
  check_read_only (forbidden_character check_field).
Proof. intros return_pid; unfold forbidden_character; read_only_body. Qed.

Lemma read_only_nan_present (check_field : string) :
  check_read_only (nan_present check_field).
Proof. intros return_pid; unfold nan_present; read_only_body. Qed.

(** Every check is an instance of one of the bodies above. *)
Ltac read_only_check :=
  first
    [ exact read_only_duplicate_wdpa_pid
    | exact read_only_invalid_no_take_no_tk_area_rep_m_area
    | exact (read_only_area_invalid_too_large _ _ _ _ _)
    | exact (read_only_area_invalid_le _ _)
    | exact (read_only_area_invalid_le_when _ _ _ _)
    | exact (read_only_invalid_value_in_field _ _ _ _)
    | exact (read_only_invalid_value_in_field_isnot _ _ _ _)
    | exact (read_only_invalid_other _ _ _ _)
    | exact (read_only_inconsistent_fields_same_wdpaid _)
    | exact (read_only_invalid_country_codes _ _)
    | exact (read_only_area_invalid_size _ _)
    | exact (read_only_forbidden_character _)
    | exact (read_only_nan_present _) ].

Lemma core_checks_read_only (codes : list string) (year : nat) :
  Forall (fun c : check => check_read_only (snd c)) (core_checks codes year).
Proof.
  unfold core_checks. repeat (apply Forall_cons; [cbn [snd]; read_only_check |]).
  apply Forall_nil.
Qed.

Lemma writes_only_of_read_only {A : Type} (names : list string) (m : Py A) :
  read_only m -> writes_only names m.
Proof. intros Hm df. rewrite (Hm df). split; [reflexivity | now intros]. Qed.

Lemma writes_only_bind {A B : Type} (names : list string) (m : Py A) (k : A -> Py B) :
  writes_only names m -> (forall a, writes_only names (k a)) ->
  writes_only names (bind m k).
Proof.
  intros Hm Hk df. unfold bind. specialize (Hm df).
  destruct (m df) as [[a | e] df']; simpl in Hm; destruct Hm as [Hn Hcols].
  - destruct (Hk a df') as [Hn' Hcols']. split.
    + now rewrite Hn'.
    + intros n Hnot. now rewrite Hcols', Hcols.
  - simpl. now split.
Qed.

Lemma writes_only_setitem (names : list string) (name : string) (s : Series) :
  In name names -> writes_only names (setitem name s).
Proof.
  intros Hin df. unfold setitem; simpl. split; [reflexivity |].
  intros n Hnot. apply lookup_assign_other.
  apply String.eqb_neq. intros ->. now apply Hnot.
Qed.

Lemma area_invalid_marine_writes (return_pid : bool) :
  writes_only ["marine_GIS_proportion"; "marine_GIS_value"]
              (area_invalid_marine return_pid).
Proof.
  unfold area_invalid_marine.
  repeat first
    [ apply writes_only_bind; [| intros ?]
    | apply writes_only_setitem; simpl; tauto
    | apply writes_only_of_read_only; solve [auto with frame] ].
Qed.

(** On the example, [area_invalid_marine] leaves the caller's frame with
    two more columns than it had. *)
Lemma area_invalid_marine_mutates :
  lookup "marine_GIS_value" (columns marine_example) = None
  /\ lookup "marine_GIS_value" (columns (snd (area_invalid_marine true marine_example)))
     = Some [PyNone; PyStr "0"; PyStr "2"; PyStr "1"]
  /\ snd (area_invalid_marine true marine_example) <> marine_example.
Proof.
  split; [reflexivity | split; [vm_compute; reflexivity |]].
  intros H. apply (f_equal (fun df => List.length (columns df))) in H.
  vm_compute in H. discriminate H.
Qed.

(** C4, amended.  Every check of the catalog other than the marine
    classification leaves the caller's frame as it was; the marine
    classification writes its two derived columns, marine_GIS_proportion
    and marine_GIS_value, onto the caller's frame and changes neither the
    index nor any other column. *)
Theorem dataset_unchanged_but_for_marine_columns (codes : list string) (year : nat) :
  (forall (name : string) (func : bool -> Py outcome),
      In (name, func) (poly_checks codes year) ->
      name <> "ivd_marine_designation" ->
      forall return_pid df, snd (func return_pid df) = df)
  /\ (forall return_pid df,
         index_size (snd (area_invalid_marine return_pid df)) = index_size df
         /\ forall name,
             name <> "marine_GIS_proportion" -> name <> "marine_GIS_value" ->
             lookup name (columns (snd (area_invalid_marine return_pid df)))
             = lookup name (columns df)).
Proof.
  split.
  - intros name func Hin Hname. unfold poly_checks in Hin.
    apply in_app_or in Hin. destruct Hin as [Hin | Hin].
    + pose proof (core_checks_read_only codes year) as Hall.
      rewrite Forall_forall in Hall. exact (Hall _ Hin).
    + unfold area_checks in Hin. cbn [In] in Hin.
      repeat (destruct Hin as [Hin | Hin];
              [injection Hin as <- <-; try read_only_check |]).
      * now elim Hname.
      * destruct Hin.
  - intros return_pid df.
    destruct (area_invalid_marine_writes return_pid df) as [Hn Hcols].
    split; [exact Hn |].
    intros name H1 H2. apply Hcols. simpl. intros [E | [E | []]]; congruence.
Qed.

Lemma dataset_unchanged_but_for_marine_columns_witness :
  snd (duplicate_wdpa_pid true single_null_pid) = single_null_pid.
Proof.
  refine (proj1 (dataset_unchanged_but_for_marine_columns [] 2019)
            "duplicate_wdpa_pid" duplicate_wdpa_pid _ _ true single_null_pid).
  - apply in_or_app. left. left. reflexivity.
  - discriminate.
Defined.

(** ** C2, continued: where the two modes of [duplicate_wdpa_pid] agree *)

Module SameValue.

Lemma SFcompare_Eq_sym (x y : spec_float) :
  SFcompare x y = Some Eq -> SFcompare y x = Some Eq.
Proof. intros H. now rewrite (FloatFacts.SFcompare_antisym _ _ _ H). Qed.

Lemma SFcompare_Eq_trans (x y z : spec_float) :
  SFcompare x y = Some Eq -> SFcompare y z = Some Eq -> SFcompare x z = Some Eq.
Proof.
  intros Hxy Hyz.
  destruct x as [sx | sx | | sx mx ex], y as [sy | sy | | sy my ey];
    try discriminate Hxy;
    try (destruct sx; discriminate Hxy);
    try (destruct sy; discriminate Hxy).
  - destruct z as [sz | sz | | sz mz ez]; try discriminate Hyz;
      try (destruct sz; discriminate Hyz).
    reflexivity.
  - destruct sx, sy; try discriminate Hxy; exact Hyz.
  - apply FloatFacts.SFcompare_Eq_finite in Hxy.
    destruct Hxy as (-> & -> & ->). exact Hyz.
Qed.

Lemma eqb_sym (x y : float) : (x =? y)%float = true -> (y =? x)%float = true.
Proof.
  rewrite !FloatAxioms.eqb_spec. unfold SFeqb.
  destruct (SFcompare (Prim2SF x) (Prim2SF y)) as [[ | | ] | ] eqn:E;
    try discriminate.
  now rewrite (SFcompare_Eq_sym _ _ E).
Qed.

Lemma eqb_trans (x y z : float) :
  (x =? y)%float = true -> (y =? z)%float = true -> (x =? z)%float = true.
Proof.
  rewrite !FloatAxioms.eqb_spec. unfold SFeqb.
  destruct (SFcompare (Prim2SF x) (Prim2SF y)) as [[ | | ] | ] eqn:E1;
    try discriminate.
  destruct (SFcompare (Prim2SF y) (Prim2SF z)) as [[ | | ] | ] eqn:E2;
    try discriminate.
  now rewrite (SFcompare_Eq_trans _ _ _ E1 E2).
Qed.

Lemma eqb_not_nan_l (x y : float) : (x =? y)%float = true -> is_nan x = false.
Proof.
  intros H. destruct (is_nan x) eqn:E; [| reflexivity].
  apply FloatFacts.is_nan_spec in E.
  rewrite FloatAxioms.eqb_spec, E in H. discriminate H.
Qed.

Lemma eqb_not_nan_r (x y : float) : (x =? y)%float = true -> is_nan y = false.
Proof. intros H. apply eqb_sym in H. now apply eqb_not_nan_l in H. Qed.

Lemma py_same_trans (a b c : pyobj) :
  py_same a b = true -> py_same b c = true -> py_same a c = true.
Proof.
  destruct a as [| x | s], b as [| y | t], c as [| z | u]; simpl;
    try discriminate; try reflexivity.
  - intros H1 H2. apply orb_true_iff in H1, H2. apply orb_true_iff.
    destruct H1 as [H1 | H1], H2 as [H2 | H2].
    + left. now apply (eqb_trans x y z).
    + apply andb_true_iff in H2. destruct H2 as [H2 _].
      now rewrite (eqb_not_nan_r _ _ H1) in H2.
    + apply andb_true_iff in H1. destruct H1 as [_ H1].
      now rewrite (eqb_not_nan_l _ _ H2) in H1.
    + right. apply andb_true_iff in H1, H2. apply andb_true_iff.
      split; tauto.
  - intros H1 H2. apply String.eqb_eq in H1, H2. subst. apply String.eqb_refl.
Qed.

Lemma mem_same (v w : pyobj) (seen : list pyobj) :
  py_same w v = true -> mem v seen = true -> mem w seen = true.
Proof.
  intros Hwv. unfold mem. rewrite !existsb_exists.
  intros (x & Hx & Hvx). exists x. split; [exact Hx |].
  now apply (py_same_trans w v x).
Qed.

(** Every row is either a first occurrence or marked as a duplicate. *)
Lemma unique_and_duplicated (s : Series) (seen1 seen2 : list pyobj) :
  (forall w, mem w seen1 = mem w seen2) ->
  List.length (unique_from seen1 s)
  + List.length (select (duplicated_from seen2 s) s)
  = List.length s.
Proof.
  revert seen1 seen2. induction s as [| v s IH]; intros seen1 seen2 Hseen;
    simpl; [reflexivity |].
  rewrite <- (Hseen v). destruct (mem v seen1) eqn:E; simpl.
  - rewrite Nat.add_succ_r. f_equal. apply IH.
    intros w. simpl. rewrite <- (Hseen w).
    destruct (py_same w v) eqn:Ew; simpl; [| reflexivity].
    now apply (mem_same v w).
  - f_equal. apply IH. intros w. simpl. now rewrite (Hseen w).
Qed.

Lemma dropna_values_none_missing (s : Series) :
  forallb (fun v => negb (isna v)) s = true -> dropna_values s = s.
Proof.
  unfold dropna_values. induction s as [| v s IH]; simpl; [reflexivity |].
  intros H. apply andb_true_iff in H. destruct H as [Hv Hs].
  now rewrite Hv, IH.
Qed.

Lemma unique_is_empty (s : Series) : is_empty (unique s) = is_empty s.
Proof. destruct s; reflexivity. Qed.

(** X2.  On a frame whose WDPA_PID column spans the index and has no
    missing value, the boolean mode of [duplicate_wdpa_pid] tells whether
    the array of duplicated identifiers is non-empty. *)
Lemma duplicate_wdpa_pid_modes_agree (df : DataFrame) (ids : Series) :
  lookup "WDPA_PID" (columns df) = Some ids ->
  index_size df = List.length ids ->
  forallb (fun v => negb (isna v)) ids = true ->
  exists duplicates,
    duplicate_wdpa_pid true df = (Ok (OArray duplicates), df)
    /\ duplicate_wdpa_pid false df = (Ok (OBool (negb (is_empty duplicates))), df).
Proof.
  intros Hids Hn Hna. eexists. split.
  - unfold duplicate_wdpa_pid. run_check. reflexivity.
  - unfold duplicate_wdpa_pid. run_check.
    unfold nunique. rewrite (dropna_values_none_missing _ Hna), Hn.
    rewrite unique_is_empty.
    pose proof (unique_and_duplicated ids [] [] (fun _ => eq_refl)) as Hcount.
    fold (unique ids) in Hcount. fold (duplicated ids) in Hcount.
    do 3 f_equal.
    destruct (select (duplicated ids) ids) as [| d ds]; simpl in *.
    + rewrite Nat.add_0_r in Hcount. rewrite Hcount. now rewrite Nat.eqb_refl.
    + destruct (Nat.eqb_spec (List.length (unique ids)) (List.length ids));
        [lia | reflexivity].
Qed.

End SameValue.

(** ** C2, continued: the other checks of the catalog *)

Lemma agree_report (invalid_wdpa_pid : Series) :
  agree (ret (report invalid_wdpa_pid true)) (ret (report invalid_wdpa_pid false)).
Proof. intros df. simpl. apply length_report_positive. Qed.

Lemma agree_bind {A : Type} (m : Py A) (kt kf : A -> Py outcome) :
  (forall a, agree (kt a) (kf a)) -> agree (bind m kt) (bind m kf).
Proof.
  intros H df. unfold bind. destruct (m df) as [[a | e] df']; simpl.
  - apply H.
  - reflexivity.
Qed.

(** A check that computes the array and ends in [report] agrees with
    itself across the modes. *)
Ltac modes_agree_body :=
  intros; unfold modes_agree; cbv zeta;
  repeat (apply agree_bind; intros ?; cbv zeta);
  apply agree_report.

Lemma modes_agree_area_invalid_marine : modes_agree area_invalid_marine.
Proof. unfold area_invalid_marine. modes_agree_body. Qed.

Lemma modes_agree_area_invalid_too_large (a b d x y : string) :
  modes_agree (area_invalid_too_large a b d x y).
Proof. unfold area_invalid_too_large. modes_agree_body. Qed.

Lemma modes_agree_area_invalid_le (field : string) (threshold : float) :
  modes_agree (area_invalid_le field threshold).
Proof. unfold area_invalid_le. modes_agree_body. Qed.

Lemma modes_agree_area_invalid_le_when (field : string) (allowed : float)
      (condition_field : string) (condition_crit : list pyobj) :
  modes_agree (area_invalid_le_when field allowed condition_field condition_crit).
Proof. unfold area_invalid_le_when. modes_agree_body. Qed.

Lemma modes_agree_invalid_no_take_no_tk_area_rep_m_area :
  modes_agree invalid_no_take_no_tk_area_rep_m_area.
Proof. unfold invalid_no_take_no_tk_area_rep_m_area. modes_agree_body. Qed.

Lemma modes_agree_invalid_value_in_field (field : string) (allowed : list pyobj)
      (condition_field : string) (condition_crit : list pyobj) :
  modes_agree (invalid_value_in_field field allowed condition_field condition_crit).
Proof. unfold invalid_value_in_field. modes_agree_body. Qed.

Lemma modes_agree_invalid_value_in_field_isnot (field : string) (allowed : list pyobj)
      (condition_field : string) (condition_crit : list pyobj) :
  modes_agree (invalid_value_in_field_isnot field allowed condition_field condition_crit).
Proof. unfold invalid_value_in_field_isnot. modes_agree_body. Qed.

Lemma modes_agree_invalid_other (field : string) (allowed : list pyobj)
      (condition_field : string) (condition_crit : list pyobj) :
  modes_agree (invalid_other field allowed condition_field condition_crit).
Proof. unfold invalid_other. modes_agree_body. Qed.

Lemma modes_agree_invalid_country_codes (codes : list string) (field : string) :
  modes_agree (invalid_country_codes codes field).
Proof. unfold invalid_country_codes. modes_agree_body. Qed.

Lemma modes_agree_area_invalid_size (small large : string) :
  modes_agree (area_invalid_size small large).
Proof. unfold area_invalid_size. modes_agree_body. Qed.

Lemma modes_agree_forbidden_character (check_field : string) :
  modes_agree (forbidden_character check_field).
Proof. unfold forbidden_character. modes_agree_body. Qed.

Lemma modes_agree_nan_present (check_field : string) :
  modes_agree (nan_present check_field).
Proof. unfold nan_present. modes_agree_body. Qed.

(** The inconsistency checks branch on the mode first.  On a frame whose
    WDPA_PID column is as long as its WDPAID column, some group has
    several values exactly when some row belongs to such a group. *)
Lemma unique_from_incl (seen : list pyobj) (s : Series) (v : pyobj) :
  In v (unique_from seen s) -> In v s.
Proof.
  revert seen. induction s as [| x s IH]; intros seen; simpl; [tauto |].
  destruct (mem x seen); simpl.
  - intros H. right. now apply (IH seen).
  - intros [-> | H]; [now left | right; now apply (IH (x :: seen))].
Qed.

Lemma select_isin_nonempty (keys pids : Series) (several : list pyobj) (k : pyobj) :
  In k keys -> In k several -> List.length pids = List.length keys ->
  select (isin keys several) pids <> [].
Proof.
  intros Hk Hsev. revert pids.
  induction keys as [| x keys IH]; intros pids Hlen; [destruct Hk |].
  destruct pids as [| p pids]; [discriminate Hlen |].
  simpl. destruct (mem x several) eqn:E; [discriminate |].
  destruct Hk as [-> | Hk].
  - exfalso. unfold mem in E.
    assert (existsb (py_same k) several = true)
      by (apply existsb_exists; exists k; split; [exact Hsev | apply py_same_refl]).
    congruence.
  - apply IH; [exact Hk | now injection Hlen].
Qed.

Lemma select_isin_nothing (keys pids : Series) :
  select (isin keys []) pids = [].
Proof.
  revert pids. induction keys as [| x keys IH]; intros [| p pids]; simpl; auto.
Qed.

Lemma modes_agree_inconsistent_fields_same_wdpaid (check_field : string)
      (df : DataFrame) (wdpaid pids : Series) :
  lookup "WDPAID" (columns df) = Some wdpaid ->
  lookup "WDPA_PID" (columns df) = Some pids ->
  List.length pids = List.length wdpaid ->
  modes_agree_at (fst (inconsistent_fields_same_wdpaid check_field true df))
                 (fst (inconsistent_fields_same_wdpaid check_field false df)).
Proof.
  intros Hid Hpid Hlen. unfold inconsistent_fields_same_wdpaid. run_check.
  destruct (lookup check_field (columns df)) as [col |]; cbv beta iota;
    [| reflexivity].
  rewrite lookup_boolean_index, Hpid. cbn [option_map fst modes_agree_at].
  rewrite length_report_positive.
  set (groups := filter (fun g => (1 <? snd g)%nat) (groupby_nunique wdpaid col)).
  assert (Hgroups : forall g, In g groups -> In (fst g) wdpaid).
  { intros g Hg. apply filter_In in Hg. destruct Hg as [Hg _].
    unfold groupby_nunique in Hg. apply in_map_iff in Hg.
    destruct Hg as (k & <- & Hk). simpl.
    apply unique_from_incl in Hk. unfold dropna_values in Hk.
    apply filter_In in Hk. tauto. }
  destruct groups as [| g groups]; simpl.
  - now rewrite select_isin_nothing.
  - destruct (select (isin wdpaid (fst g :: map fst groups)) pids) eqn:E;
      [| reflexivity].
    exfalso. revert E.
    apply (select_isin_nonempty wdpaid pids _ (fst g));
      [apply Hgroups; now left | now left | exact Hlen].
Qed.

(** X20.  Every check of the catalog other than [duplicate_wdpa_pid]
    answers, in boolean mode, whether the array it returns in identifier
    mode is non-empty, and raises in one mode what it raises in the
    other, on any frame whose WDPA_PID and WDPAID columns have the same
    length. *)
Lemma catalog_modes_agree (codes : list string) (year : nat)
      (df : DataFrame) (wdpaid pids : Series) :
  lookup "WDPAID" (columns df) = Some wdpaid ->
  lookup "WDPA_PID" (columns df) = Some pids ->
  List.length pids = List.length wdpaid ->
  forall (name : string) (func : bool -> Py outcome),
    In (name, func) (poly_checks codes year) ->
    name <> "duplicate_wdpa_pid" ->
    modes_agree_at (fst (func true df)) (fst (func false df)).
Proof.
  intros Hid Hpid Hlen name func Hin Hname.
  unfold poly_checks, core_checks, area_checks in Hin. cbn [In app] in Hin.
  repeat (destruct Hin as [Hin | Hin];
          [injection Hin as <- <-;
           first
             [ now elim Hname
             | exact (modes_agree_inconsistent_fields_same_wdpaid _ df wdpaid pids
                        Hid Hpid Hlen)
             | exact (modes_agree_area_invalid_marine df)
             | exact (modes_agree_invalid_no_take_no_tk_area_rep_m_area df)
             | exact (modes_agree_area_invalid_too_large _ _ _ _ _ df)
             | exact (modes_agree_area_invalid_le _ _ df)
             | exact (modes_agree_area_invalid_le_when _ _ _ _ df)
             | exact (modes_agree_invalid_value_in_field _ _ _ _ df)
             | exact (modes_agree_invalid_value_in_field_isnot _ _ _ _ df)
             | exact (modes_agree_invalid_other _ _ _ _ df)
             | exact (modes_agree_invalid_country_codes _ _ df)
             | exact (modes_agree_area_invalid_size _ _ df)
             | exact (modes_agree_forbidden_character _ df)
             | exact (modes_agree_nan_present _ df) ] |]).
  destruct Hin.
Qed.

(** * Further properties of the checks *)

(** ** Values that are the same *)

Lemma py_same_sym (a b : pyobj) : py_same a b = py_same b a.
Proof.
  destruct a as [| x | s], b as [| y | t]; simpl; try reflexivity.
  - rewrite (andb_comm (is_nan x)). f_equal.
    destruct (x =? y)%float eqn:E1, (y =? x)%float eqn:E2; try reflexivity.
    + apply SameValue.eqb_sym in E1. congruence.
    + apply SameValue.eqb_sym in E2. congruence.
  - apply String.eqb_sym.
Qed.

Lemma py_same_isna (a b : pyobj) : py_same a b = true -> isna a = isna b.
Proof.
  destruct a as [| x | s], b as [| y | t]; simpl; try discriminate; try reflexivity.
  intros H. apply orb_true_iff in H. destruct H as [H | H].
  - now rewrite (SameValue.eqb_not_nan_l _ _ H), (SameValue.eqb_not_nan_r _ _ H).
  - apply andb_true_iff in H. destruct H as [-> ->]. reflexivity.
Qed.

(** Two values that are the same match the same cells. *)
Lemma py_same_cells (a b x : pyobj) : py_same a b = true -> py_same a x = py_same b x.
Proof.
  intros H. destruct (py_same a x) eqn:E1, (py_same b x) eqn:E2; try reflexivity.
  - rewrite py_same_sym in H.
    now rewrite (SameValue.py_same_trans b a x H E1) in E2.
  - now rewrite (SameValue.py_same_trans a b x H E2) in E1.
Qed.

Lemma mem_of_same (a b : pyobj) (l : list pyobj) :
  py_same a b = true -> mem a l = mem b l.
Proof.
  intros H. unfold mem. induction l as [| x l IH]; simpl; [reflexivity |].
  now rewrite IH, (py_same_cells a b x H).
Qed.

Lemma mem_In (v : pyobj) (l : list pyobj) : In v l -> mem v l = true.
Proof.
  intros H. apply existsb_exists. exists v. split; [exact H | apply py_same_refl].
Qed.

Lemma mem_unique_from (v : pyobj) (seen : list pyobj) (s : Series) :
  mem v (unique_from seen s) = mem v s && negb (mem v seen).
Proof.
  revert seen. induction s as [| x s IH]; intros seen; simpl; [reflexivity |].
  destruct (mem x seen) eqn:Ex.
  - rewrite IH. destruct (py_same v x) eqn:Evx; simpl; [| reflexivity].
    rewrite (mem_of_same v x seen Evx), Ex. simpl. now rewrite andb_false_r.
  - simpl. rewrite IH. simpl. destruct (py_same v x) eqn:Evx; simpl.
    + now rewrite (mem_of_same v x seen Evx), Ex.
    + reflexivity.
Qed.

Lemma mem_unique (v : pyobj) (s : Series) : mem v (unique s) = mem v s.
Proof. unfold unique. rewrite mem_unique_from. simpl. apply andb_true_r. Qed.

Lemma all_distinct_unique_from (seen : list pyobj) (s : Series) :
  all_distinct (unique_from seen s) = true.
Proof.
  revert seen. induction s as [| x s IH]; intros seen; simpl; [reflexivity |].
  destruct (mem x seen) eqn:Ex; [apply IH |].
  simpl. rewrite IH, mem_unique_from. simpl. rewrite py_same_refl. simpl.
  now rewrite andb_false_r.
Qed.

(** ** The duplicated identifiers *)

Lemma mem_duplicated_from (v : pyobj) (seen : list pyobj) (s : Series) :
  mem v (select (duplicated_from seen s) s) = true
  <-> (mem v seen = true /\ 1 <= count_same v s) \/ 2 <= count_same v s.
Proof.
  unfold count_same. revert seen.
  induction s as [| x s IH]; intros seen; simpl.
  - split; [discriminate | intros [[_ H] | H]; inversion H].
  - assert (Hrest : mem v (select (duplicated_from (x :: seen) s) s) = true
                    <-> (py_same v x || mem v seen = true
                         /\ 1 <= List.length (filter (py_same v) s))
                        \/ 2 <= List.length (filter (py_same v) s))
      by apply IH.
    destruct (py_same v x) eqn:Evx.
    + rewrite <- (mem_of_same v x seen Evx).
      destruct (mem v seen) eqn:Eseen; simpl.
      * rewrite Evx. simpl. split; [intros _; left; split; [reflexivity | lia] | reflexivity].
      * rewrite Hrest. simpl. split.
        -- intros [[_ H] | H]; right; lia.
        -- intros [[H _] | H]; [discriminate | left; split; [reflexivity | lia]].
    + simpl in Hrest.
      destruct (mem x seen); simpl; rewrite ?Evx; simpl; exact Hrest.
Qed.

(** X1.  [duplicate_wdpa_pid] with [return_pid] returns every repeated
    identifier once: the array has no repetition, and a value is in it
    exactly when it occurs at least twice in the WDPA_PID column. *)
Theorem duplicate_wdpa_pid_array (df : DataFrame) (ids : Series) :
  lookup "WDPA_PID" (columns df) = Some ids ->
  exists duplicates,
    duplicate_wdpa_pid true df = (Ok (OArray duplicates), df)
    /\ all_distinct duplicates = true
    /\ forall v, mem v duplicates = true <-> 2 <= count_same v ids.
Proof.
  intros Hids. eexists. split; [| split].
  - unfold duplicate_wdpa_pid. run_check. reflexivity.
  - apply all_distinct_unique_from.
  - intros v. rewrite mem_unique. unfold duplicated.
    rewrite mem_duplicated_from. simpl. split.
    + intros [[H _] | H]; [discriminate | exact H].
    + intros H. now right.
Qed.

Lemma duplicate_wdpa_pid_array_witness :
  exists duplicates,
    duplicate_wdpa_pid true repeated_pids = (Ok (OArray duplicates), repeated_pids)
    /\ all_distinct duplicates = true
    /\ forall v, mem v duplicates = true
                 <-> 2 <= count_same v [PyStr "1"; PyStr "2"; PyStr "1"; PyStr "1"].
Proof. exact (duplicate_wdpa_pid_array repeated_pids _ eq_refl). Defined.

Lemma duplicate_wdpa_pid_modes_agree_witness :
  exists duplicates,
    duplicate_wdpa_pid true repeated_pids = (Ok (OArray duplicates), repeated_pids)
    /\ duplicate_wdpa_pid false repeated_pids
       = (Ok (OBool (negb (is_empty duplicates))), repeated_pids).
Proof.
  exact (SameValue.duplicate_wdpa_pid_modes_agree repeated_pids _
           eq_refl eq_refl eq_refl).
Defined.

Lemma catalog_modes_agree_witness :
  modes_agree_at (fst (inconsistent_name_same_wdpaid true consistency_example))
                 (fst (inconsistent_name_same_wdpaid false consistency_example)).
Proof.
  refine (catalog_modes_agree [] 2019 consistency_example _ _
            eq_refl eq_refl eq_refl "dif_name_same_id"
            inconsistent_name_same_wdpaid _ _).
  - do 8 right. left. reflexivity.
  - discriminate.
Defined.

(** ** The inconsistency checks *)

Lemma isin_several (wdpaid col : Series) (k : pyobj) :
  In k wdpaid ->
  mem k (map fst (filter (fun g => (1 <? snd g)%nat) (groupby_nunique wdpaid col)))
  = inconsistent_key wdpaid col k.
Proof.
  intros Hk. unfold inconsistent_key, groupby_nunique.
  set (count := fun k => nunique (select (map (py_same k) wdpaid) col)).
  assert (Hcount : forall a b, py_same a b = true -> count a = count b).
  { intros a b Hab. unfold count. f_equal. f_equal.
    apply map_ext. intros x. now apply py_same_cells. }
  change (nunique (select (map (py_same k) wdpaid) col)) with (count k).
  match goal with |- mem k ?l = _ => set (several := l) end.
  assert (Hsev : forall g, In g several <->
                           In g (unique (dropna_values wdpaid))
                           /\ (1 <? count g)%nat = true).
  { intros g. unfold several. rewrite in_map_iff. split.
    - intros ([g' n] & Hfst & Hg). simpl in Hfst. subst g'.
      apply filter_In in Hg. destruct Hg as [Hg Hn]. simpl in Hn.
      apply in_map_iff in Hg. destruct Hg as (g' & Heq & Hg').
      injection Heq as -> <-. now split.
    - intros [Hg Hn]. exists (g, count g). split; [reflexivity |].
      apply filter_In. split; [| exact Hn].
      apply in_map_iff. now exists g. }
  destruct (mem k several) eqn:E; symmetry.
  - apply existsb_exists in E. destruct E as (g & Hg & Hsame).
    apply Hsev in Hg. destruct Hg as [Hg Hn].
    apply unique_from_incl in Hg. unfold dropna_values in Hg.
    apply filter_In in Hg. destruct Hg as [_ Hna].
    now rewrite (py_same_isna _ _ Hsame), Hna, (Hcount _ _ Hsame), Hn.
  - destruct (isna k) eqn:Ena; [reflexivity |]. simpl.
    destruct (1 <? count k)%nat eqn:En; [| reflexivity].
    exfalso.
    assert (Hin : mem k (unique (dropna_values wdpaid)) = true).
    { rewrite mem_unique. apply mem_In. unfold dropna_values.
      apply filter_In. split; [exact Hk | now rewrite Ena]. }
    apply existsb_exists in Hin. destruct Hin as (g & Hg & Hsame).
    assert (mem k several = true); [| congruence].
    apply existsb_exists. exists g. split; [| exact Hsame].
    apply Hsev. split; [exact Hg |]. now rewrite <- (Hcount _ _ Hsame).
Qed.

Lemma isin_several_keys (wdpaid col : Series) :
  isin wdpaid (map fst (filter (fun g => (1 <? snd g)%nat)
                               (groupby_nunique wdpaid col)))
  = map (inconsistent_key wdpaid col) wdpaid.
Proof.
  unfold isin. apply map_ext_in. intros k Hk. now apply isin_several.
Qed.

(** X3.  [inconsistent_fields_same_wdpaid] with [return_pid] returns the
    identifiers of exactly the rows whose WDPAID is not missing and is
    shared by rows with more than one distinct non-missing value of the
    field; a row with a missing WDPAID is never among them. *)
Theorem inconsistent_fields_same_wdpaid_rows (df : DataFrame) (check_field : string)
        (wdpaid col pids : Series) :
  lookup "WDPAID" (columns df) = Some wdpaid ->
  lookup check_field (columns df) = Some col ->
  lookup "WDPA_PID" (columns df) = Some pids ->
  inconsistent_fields_same_wdpaid check_field true df
  = (Ok (OArray (select (map (inconsistent_key wdpaid col) wdpaid) pids)), df)
  /\ (forall k, isna k = true -> inconsistent_key wdpaid col k = false)
  /\ (forall k, nunique (select (map (py_same k) wdpaid) col) <= 1 ->
                inconsistent_key wdpaid col k = false).
Proof.
  intros Hid Hcol Hpid. split; [| split].
  - unfold inconsistent_fields_same_wdpaid. run_check.
    rewrite lookup_boolean_index, Hpid. cbn [option_map].
    now rewrite isin_several_keys.
  - intros k Hk. unfold inconsistent_key. now rewrite Hk.
  - intros k Hk. unfold inconsistent_key.
    destruct (Nat.ltb_spec 1 (nunique (select (map (py_same k) wdpaid) col)));
      [lia | apply andb_false_r].
Qed.

Lemma inconsistent_fields_same_wdpaid_rows_witness :
  inconsistent_fields_same_wdpaid "NAME" true consistency_example
  = (Ok (OArray [PyStr "1_A"; PyStr "1_B"]), consistency_example).
Proof.
  exact (proj1 (inconsistent_fields_same_wdpaid_rows consistency_example "NAME"
                  _ _ _ eq_refl eq_refl eq_refl)).
Defined.

(** ** Selecting rows *)

Lemma select_nil_r {A : Type} (m : list bool) : select m (@nil A) = [].
Proof. now destruct m. Qed.

Lemma select_select {A B : Type} (f : A -> bool) (m : list bool) (xs : list A)
      (ys : list B) :
  select (map f (select m xs)) (select m ys)
  = select (map2 (fun b x => b && f x) m xs) ys.
Proof.
  revert xs ys. induction m as [| b m IH]; intros xs ys; [reflexivity |].
  destruct ys as [| y ys].
  - now rewrite !select_nil_r.
  - destruct xs as [| x xs]; [now destruct b |].
    simpl. destruct b; simpl; [| apply IH].
    destruct (f x); now rewrite IH.
Qed.

Lemma map2_map_l {A B C D : Type} (f : B -> C -> D) (g : A -> B) (l : list A)
      (ys : list C) :
  map2 f (map g l) ys = map2 (fun a y => f (g a) y) l ys.
Proof.
  revert ys. induction l as [| a l IH]; intros [| y ys]; simpl; try reflexivity.
  now rewrite IH.
Qed.

Lemma In_select {A : Type} (m : list bool) (xs : list A) (x : A) :
  In x (select m xs) ->
  exists i, nth_error m i = Some true /\ nth_error xs i = Some x.
Proof.
  revert xs. induction m as [| b m IH]; intros [| y xs]; simpl; try tauto.
  destruct b.
  - intros [-> | H]; [now exists 0 |].
    destruct (IH _ H) as (i & Hm & Hx). now exists (S i).
  - intros H. destruct (IH _ H) as (i & Hm & Hx). now exists (S i).
Qed.

Lemma lookup_In (name : string) (cols : list (string * Series)) (s : Series) :
  lookup name cols = Some s -> In (name, s) cols.
Proof.
  induction cols as [| [n c] cols IH]; simpl; [discriminate |].
  destruct (String.eqb n name) eqn:E.
  - apply String.eqb_eq in E. subst n. intros H. injection H as ->. now left.
  - intros H. right. now apply IH.
Qed.

Lemma mapM_ok_in {A B : Type} (f : A -> result B) (g : A -> B) (l : list A) :
  (forall x, In x l -> f x = Ok (g x)) -> mapM f l = Ok (map g l).
Proof.
  induction l as [| x l IH]; intros H; simpl; [reflexivity |].
  rewrite (H x (or_introl eq_refl)). simpl.
  rewrite IH; [reflexivity |]. intros y Hy. apply H. now right.
Qed.

(** ** The forbidden-character check *)

(** A row that [dropna] keeps has no missing value in any column. *)
Lemma kept_row_cell (df : DataFrame) (name : string) (col : Series) (i : nat)
      (v : pyobj) :
  lookup name (columns df) = Some col ->
  nth_error (map (fun i => negb (row_has_na df i)) (seq 0 (index_size df))) i
  = Some true ->
  nth_error col i = Some v ->
  isna v = false.
Proof.
  intros Hcol Hkept Hv.
  rewrite nth_error_map in Hkept.
  destruct (nth_error (seq 0 (index_size df)) i) as [j |] eqn:Ej; [| discriminate].
  simpl in Hkept.
  assert (j = i).
  { assert (Hlt : i < List.length (seq 0 (index_size df)))
      by (apply nth_error_Some; congruence).
    rewrite length_seq in Hlt.
    rewrite (nth_error_nth' _ 0) in Ej by (now rewrite length_seq).
    rewrite seq_nth in Ej by exact Hlt. simpl in Ej. congruence. }
  subst j. injection Hkept as Hkept. apply negb_true_iff in Hkept.
  unfold row_has_na in Hkept.
  rewrite <- not_true_iff_false in Hkept.
  destruct (isna v) eqn:E; [| reflexivity].
  exfalso. apply Hkept. apply existsb_exists.
  exists (name, col). split; [now apply lookup_In |]. simpl. now rewrite Hv.
Qed.

Lemma holds_text_not_float64 (col : Series) :
  holds_text col = true -> float64 col = false.
Proof.
  unfold holds_text, float64. destruct col as [| v col]; [discriminate |].
  intros H. apply existsb_exists in H. destruct H as (t & Ht & Htext).
  apply not_true_iff_false. intros Hall.
  rewrite forallb_forall in Hall. specialize (Hall t Ht).
  destruct t; discriminate.
Qed.

Lemma forbidden_character_run (df : DataFrame) (check_field : string)
      (col pids : Series) (return_pid : bool) :
  lookup check_field (columns df) = Some col ->
  lookup "WDPA_PID" (columns df) = Some pids ->
  forallb text_or_missing col = true ->
  holds_text col = true ->
  forbidden_character check_field return_pid df
  = (Ok (report (select (map2 (forbidden_row df) (seq 0 (index_size df)) col) pids)
                return_pid), df).
Proof.
  intros Hcol Hpid Htext Hobject.
  unfold forbidden_character, dropna. run_check.
  rewrite lookup_boolean_index, Hcol. cbn [option_map]. cbv beta iota.
  set (kept := map (fun i => negb (row_has_na df i)) (seq 0 (index_size df))).
  unfold str_contains. rewrite (holds_text_not_float64 col Hobject).
  rewrite (mapM_ok_in _ has_forbidden).
  - cbv beta iota. rewrite !lookup_boolean_index, Hpid. cbn [option_map].
    rewrite select_select. unfold kept. rewrite map2_map_l. reflexivity.
  - intros v Hv. apply In_select in Hv. destruct Hv as (i & Hkept & Hi).
    pose proof (kept_row_cell df check_field col i v Hcol Hkept Hi) as Hna.
    rewrite forallb_forall in Htext.
    specialize (Htext v (nth_error_In _ _ Hi)).
    destruct v as [| x | t]; simpl in *; [discriminate | congruence | reflexivity].
Qed.

(** X4.  On a frame whose checked field holds a text in at least one row
    and texts or missing values in the others, [forbidden_character]
    returns the identifiers of exactly the rows that have no missing
    value in any column and a forbidden character in the checked field:
    a row with a missing value anywhere, the checked field included, is
    never flagged.  On a checked field that is a float64 column, as a
    field that is NaN in every row is, the check raises AttributeError
    in either mode and leaves the frame as it was. *)
Theorem forbidden_character_rows (df : DataFrame) (check_field : string)
        (col pids : Series) :
  lookup check_field (columns df) = Some col ->
  lookup "WDPA_PID" (columns df) = Some pids ->
  forallb text_or_missing col = true ->
  holds_text col = true ->
  forbidden_character check_field true df
  = (Ok (OArray (select (map2 (forbidden_row df) (seq 0 (index_size df)) col) pids)),
     df)
  /\ (forall i v, row_has_na df i = true -> forbidden_row df i v = false)
  /\ (forall i v, isna v = true -> forbidden_row df i v = false)
  /\ (forall frame numbers return_pid,
         lookup check_field (columns frame) = Some numbers ->
         float64 numbers = true ->
         forbidden_character check_field return_pid frame
         = (Raise AttributeError, frame)).
Proof.
  intros Hcol Hpid Htext Hobject. split; [| split; [| split]].
  - exact (forbidden_character_run df check_field col pids true
             Hcol Hpid Htext Hobject).
  - intros i v H. unfold forbidden_row. now rewrite H.
  - intros i v H. unfold forbidden_row.
    destruct v as [| x | t]; simpl in *; try apply andb_false_r. discriminate.
  - intros frame numbers return_pid Hnumbers Hfloat.
    unfold forbidden_character, dropna. run_check.
    rewrite lookup_boolean_index, Hnumbers. cbn [option_map]. cbv beta iota.
    unfold str_contains. now rewrite Hfloat.
Qed.

Lemma forbidden_character_rows_witness :
  forbidden_character "NAME" true forbidden_example
  = (Ok (OArray [PyStr "3"]), forbidden_example).
Proof.
  exact (proj1 (forbidden_character_rows forbidden_example "NAME" _ _
                  eq_refl eq_refl eq_refl eq_refl)).
Defined.

(** ** [find_wdpa_rows] *)

Lemma select_isin_self (ids : Series) (wdpa_pid : list pyobj) :
  select (isin ids wdpa_pid) ids = filter (fun v => mem v wdpa_pid) ids.
Proof.
  unfold isin. induction ids as [| v ids IH]; simpl; [reflexivity |].
  destruct (mem v wdpa_pid); now rewrite IH.
Qed.

Lemma length_select {A : Type} (m : list bool) (xs : list A) :
  List.length m = List.length xs ->
  List.length (select m xs) = List.length (filter (fun b => b) m).
Proof.
  revert xs. induction m as [| b m IH]; intros [| x xs] H; simpl in *;
    try discriminate; [reflexivity |].
  injection H as H. destruct b; simpl; now rewrite IH.
Qed.

Lemma select_all {A : Type} (m : list bool) (xs : list A) :
  forallb (fun b => b) m = true -> List.length xs <= List.length m ->
  select m xs = xs.
Proof.
  revert xs. induction m as [| b m IH]; intros [| x xs] Hall Hlen; simpl in *;
    try reflexivity; try lia.
  apply andb_true_iff in Hall. destruct Hall as [-> Hall].
  rewrite IH; [reflexivity | exact Hall | lia].
Qed.

Lemma filter_all_true (m : list bool) :
  forallb (fun b => b) m = true -> filter (fun b => b) m = m.
Proof.
  induction m as [| b m IH]; simpl; [reflexivity |].
  intros H. apply andb_true_iff in H. destruct H as [-> H]. now rewrite IH.
Qed.

Lemma isin_of_selected (ids : Series) (wdpa_pid : list pyobj) :
  forallb (fun b => b) (isin (filter (fun v => mem v wdpa_pid) ids) wdpa_pid) = true.
Proof.
  unfold isin. induction ids as [| v ids IH]; simpl; [reflexivity |].
  destruct (mem v wdpa_pid) eqn:E; simpl; [now rewrite E | exact IH].
Qed.

(** X5.  [find_wdpa_rows] returns a new frame, leaving the caller's as it
    was, that holds of every column the rows whose WDPA_PID is in the
    list: its WDPA_PID column is the sub-column of the identifiers in the
    list, every listed identifier of the frame is in it, and on a frame
    whose columns all span the index, looking the same list up in the
    result gives the result again. *)
Theorem find_wdpa_rows_selects (df : DataFrame) (ids : Series) (wdpa_pid : list pyobj) :
  lookup "WDPA_PID" (columns df) = Some ids ->
  exists rows,
    find_wdpa_rows wdpa_pid df = (Ok rows, df)
    /\ lookup "WDPA_PID" (columns rows) = Some (filter (fun v => mem v wdpa_pid) ids)
    /\ (forall name,
           lookup name (columns rows)
           = option_map (select (isin ids wdpa_pid)) (lookup name (columns df)))
    /\ (forall p, In p ids -> In p wdpa_pid ->
                  In p (filter (fun v => mem v wdpa_pid) ids))
    /\ (Forall (fun c => List.length (snd c) = List.length ids) (columns df) ->
        fst (find_wdpa_rows wdpa_pid rows) = Ok rows).
Proof.
  intros Hids. exists (boolean_index df (isin ids wdpa_pid)).
  split; [| split; [| split; [| split]]].
  - unfold find_wdpa_rows. run_check. reflexivity.
  - rewrite lookup_boolean_index, Hids. cbn [option_map].
    now rewrite select_isin_self.
  - intros name. apply lookup_boolean_index.
  - intros p Hp Hl. apply filter_In. split; [exact Hp | now apply mem_In].
  - intros Hwf. unfold find_wdpa_rows. unfold bind, getitem, frame_getitem, this, ret.
    rewrite lookup_boolean_index, Hids. cbn [option_map fst].
    rewrite select_isin_self.
    set (kept := filter (fun v => mem v wdpa_pid) ids).
    assert (Hkept : List.length kept
                    = List.length (filter (fun b => b) (isin ids wdpa_pid))).
    { unfold kept. rewrite <- select_isin_self. apply length_select.
      unfold isin. apply length_map. }
    f_equal. unfold boolean_index. cbn [columns]. f_equal.
    + unfold kept. rewrite (filter_all_true _ (isin_of_selected ids wdpa_pid)).
      unfold isin at 1. rewrite length_map. exact Hkept.
    + rewrite map_map. cbn [fst snd].
      apply map_ext_in. intros [n c] Hc. cbn [fst snd]. f_equal.
      apply select_all; [apply isin_of_selected |].
      unfold isin at 2. rewrite length_map. fold kept. rewrite Hkept.
      rewrite length_select; [lia |].
      rewrite Forall_forall in Hwf. specialize (Hwf _ Hc). cbn [snd] in Hwf.
      unfold isin. now rewrite length_map, Hwf.
Qed.

Lemma find_wdpa_rows_selects_witness :
  exists rows,
    find_wdpa_rows [PyStr "1_B"; PyStr "3"] consistency_example
    = (Ok rows, consistency_example)
    /\ lookup "WDPA_PID" (columns rows) = Some [PyStr "1_B"; PyStr "3"].
Proof.
  destruct (find_wdpa_rows_selects consistency_example _ [PyStr "1_B"; PyStr "3"]
              eq_refl) as (rows & Hrun & Hpid & _).
  exists rows. split; [exact Hrun | exact Hpid].
Defined.

(** ** Splitting and joining *)

Lemma str_split_join (sep : ascii) (s : string) :
  String.concat (String sep "") (str_split sep s) = s.
Proof.
  induction s as [| c s IH]; [reflexivity |].
  cbn [str_split]. destruct (Ascii.eqb c sep) eqn:E.
  - apply Ascii.eqb_eq in E. subst c.
    destruct (str_split sep s) as [| w ws] eqn:Es;
      [now apply str_split_nonempty in Es |].
    change (String.concat (String sep "") ("" :: w :: ws))
      with (String sep (String.concat (String sep "") (w :: ws))).
    now rewrite IH.
  - destruct (str_split sep s) as [| w ws] eqn:Es;
      [now apply str_split_nonempty in Es |].
    destruct ws as [| y ws]; simpl in *; now rewrite IH.
Qed.

Lemma str_split_components (sep : ascii) (s w : string) :
  In w (str_split sep s) -> ~ In sep (list_ascii_of_string w).
Proof.
  revert w. induction s as [| c s IH]; intros w; cbn [str_split].
  - intros [<- | []]. simpl. tauto.
  - destruct (Ascii.eqb c sep) eqn:E.
    + intros [<- | H]; [simpl; tauto | now apply IH].
    + destruct (str_split sep s) as [| w0 ws] eqn:Es.
      * intros [<- | []]. simpl. apply Ascii.eqb_neq in E. intuition congruence.
      * intros [<- | H].
        -- simpl. apply Ascii.eqb_neq in E. intros [Hc | Hin]; [congruence |].
           apply (IH w0); [now left | exact Hin].
        -- apply IH. now right.
Qed.

Lemma str_split_length (sep : ascii) (s : string) :
  List.length (str_split sep s) = S (count_char sep s).
Proof.
  unfold count_char. induction s as [| c s IH]; [reflexivity |].
  cbn [str_split list_ascii_of_string filter].
  rewrite (Ascii.eqb_sym sep c). destruct (Ascii.eqb c sep); simpl.
  - now rewrite IH.
  - destruct (str_split sep s) as [| w ws] eqn:Es;
      [now apply str_split_nonempty in Es |].
    simpl in *. exact IH.
Qed.

(** X6.  [str.split]: joining the components with the separator gives
    the string back, no component contains the separator, and there is
    one component more than there are separators in the string. *)
Theorem str_split_round_trip (sep : ascii) (s : string) :
  String.concat (String sep "") (str_split sep s) = s
  /\ (forall w, In w (str_split sep s) -> ~ In sep (list_ascii_of_string w))
  /\ List.length (str_split sep s) = S (count_char sep s).
Proof.
  split; [apply str_split_join | split].
  - intros w. apply str_split_components.
  - apply str_split_length.
Qed.

(** ** Country codes *)

Lemma in_iso3 (codes : list string) (each : string) :
  existsb (String.eqb each) (iso3 codes) = true <-> In each codes \/ each = "ABNJ".
Proof.
  unfold iso3. rewrite existsb_exists. split.
  - intros (c & Hc & E). apply String.eqb_eq in E. subst c.
    apply in_app_or in Hc. destruct Hc as [Hc | [Hc | []]]; auto.
  - intros H. exists each. split; [| apply String.eqb_refl].
    apply in_or_app. destruct H as [H | ->]; [now left | right; now left].
Qed.

Lemma all_in_iso3_spec (codes parts : list string) :
  all_in_iso3 codes parts = true
  <-> forall c, In c parts -> In c codes \/ c = "ABNJ".
Proof.
  induction parts as [| p parts IH]; simpl.
  - split; [intros _ c [] | reflexivity].
  - destruct (existsb (String.eqb p) (iso3 codes)) eqn:E.
    + rewrite IH. apply in_iso3 in E. split.
      * intros H c [<- | Hc]; auto.
      * intros H c Hc. apply H. now right.
    + split; [discriminate |]. intros H.
      assert (Hp : existsb (String.eqb p) (iso3 codes) = true)
        by (apply in_iso3, H; now left).
      congruence.
Qed.

(** X7.  On a frame of at least one record whose code field holds a text
    in every record, the country-code check returns the identifiers of
    exactly the records with a component of the field that is neither in
    the reference list nor 'ABNJ'; 'ABNJ' alone is valid whatever the
    reference list.  On a frame whose code field has no rows the check
    raises KeyError in either mode and leaves the frame as it was. *)
Theorem invalid_country_codes_components (codes : list string) (df : DataFrame)
        (recs : list code_record) (field : string) :
  recs <> [] ->
  lookup "WDPA_PID" (columns df) = Some (map code_pid recs) ->
  lookup field (columns df) = Some (map (fun r => PyStr (code_value r)) recs) ->
  invalid_country_codes codes field true df
  = (Ok (OArray (map code_pid (filter (codes_invalid codes) recs))), df)
  /\ (forall r,
         codes_invalid codes r = false
         <-> forall c, In c (str_split ";" (code_value r)) ->
                       In c codes \/ c = "ABNJ")
  /\ _correct_iso3 codes (PyStr "ABNJ") = Ok true
  /\ (forall frame return_pid,
         lookup field (columns frame) = Some [] ->
         invalid_country_codes codes field return_pid frame
         = (Raise KeyError, frame)).
Proof.
  intros Hrows HP HF. split; [| split; [| split]].
  - exact (invalid_country_codes_run codes df recs field true Hrows HP HF).
  - intros r. unfold codes_invalid. rewrite negb_false_iff. apply all_in_iso3_spec.
  - unfold _correct_iso3. f_equal. apply all_in_iso3_spec.
    intros c [<- | []]. now right.
  - intros frame return_pid Hnone.
    unfold invalid_country_codes. run_check. reflexivity.
Qed.

Lemma invalid_country_codes_components_witness :
  invalid_country_codes ["USA"; "FRA"] "ISO3" true codes_example
  = (Ok (OArray [PyStr "2"]), codes_example).
Proof.
  refine (proj1 (invalid_country_codes_components ["USA"; "FRA"] codes_example
                   codes_example_records "ISO3" _ eq_refl eq_refl)).
  discriminate.
Defined.

(** ** The year of the status *)

Lemma str_of_nat_inj (n m : nat) : str_of_nat n = str_of_nat m -> n = m.
Proof.
  unfold str_of_nat. intros H.
  apply (f_equal NilEmpty.uint_of_string) in H.
  rewrite !NilEmpty.usu in H. injection H as H.
  now apply DecimalNat.Unsigned.to_uint_inj.
Qed.

Lemma mem_strs (s : string) (l : list string) :
  mem (PyStr s) (strs l) = true <-> In s l.
Proof.
  unfold mem, strs. rewrite existsb_exists. split.
  - intros (v & Hv & E). apply in_map_iff in Hv. destruct Hv as (t & <- & Ht).
    simpl in E. apply String.eqb_eq in E. now subst t.
  - intros H. exists (PyStr s). split; [now apply in_map | apply String.eqb_refl].
Qed.

Lemma mem_strs_not_text (v : pyobj) (l : list string) :
  (forall s, v <> PyStr s) -> mem v (strs l) = false.
Proof.
  intros Hv. unfold mem, strs. induction l as [| t l IH]; [reflexivity |].
  simpl. rewrite IH. destruct v as [| x | s]; try reflexivity.
  now elim (Hv s).
Qed.

Lemma In_year_array (year n : nat) :
  In n (0 :: seq 1750 (year + 1 - 1750)) <-> n = 0 \/ 1750 <= n <= year.
Proof.
  simpl. rewrite in_seq. split.
  - intros [<- | H]; [now left | right; lia].
  - intros [-> | H]; [now left | right; lia].
Qed.

(** X8.  [invalid_status_yr] returns the identifiers of the records
    whose STATUS_YR is not the text of an allowed year; the text of a
    number is allowed exactly when the number is 0 or a year from 1750 to
    the current year, and a STATUS_YR held as a number, or missing, is
    never allowed. *)
Theorem invalid_status_yr_years (year : nat) (df : DataFrame)
        (recs : list member_record) :
  lookup "WDPA_PID" (columns df) = Some (map member_pid recs) ->
  lookup "STATUS_YR" (columns df) = Some (map member_value recs) ->
  invalid_status_yr year true df
  = (Ok (OArray (map member_pid
                     (filter (fun r => negb (mem (member_value r)
                                                 (status_yr_allowed year)))
                             recs))), df)
  /\ (forall s, mem (PyStr s) (status_yr_allowed year) = true
                <-> exists n, s = str_of_nat n /\ (n = 0 \/ 1750 <= n <= year))
  /\ (forall n, mem (PyStr (str_of_nat n)) (status_yr_allowed year) = true
                <-> n = 0 \/ 1750 <= n <= year)
  /\ (forall x, mem (PyFloat x) (status_yr_allowed year) = false)
  /\ mem PyNone (status_yr_allowed year) = false.
Proof.
  intros HP HF.
  assert (Htext : forall s, mem (PyStr s) (status_yr_allowed year) = true
                            <-> exists n, s = str_of_nat n
                                          /\ (n = 0 \/ 1750 <= n <= year)).
  { intros s. unfold status_yr_allowed. rewrite mem_strs, in_map_iff. split.
    - intros (n & <- & Hn). exists n. split; [reflexivity | now apply In_year_array].
    - intros (n & -> & Hn). exists n. split; [reflexivity | now apply In_year_array]. }
  split; [| split; [exact Htext | split; [| split]]].
  - unfold invalid_status_yr.
    rewrite (invalid_value_in_field_run df recs "STATUS_YR" _ "" [] true HP HF)
      by discriminate.
    unfold report. do 4 f_equal. apply filter_ext. intros r.
    unfold member_offends, conditioned, status_yr_allowed. simpl.
    now rewrite andb_true_r.
  - intros n. rewrite Htext. split.
    + intros (m & E & Hm). apply str_of_nat_inj in E. now subst m.
    + intros H. now exists n.
  - intros x. apply mem_strs_not_text. discriminate.
  - apply mem_strs_not_text. discriminate.
Qed.

Lemma invalid_status_yr_years_witness :
  invalid_status_yr 2019 true status_yr_example
  = (Ok (OArray [PyStr "3"; PyStr "4"]), status_yr_example).
Proof.
  exact (proj1 (invalid_status_yr_years 2019 status_yr_example
                  status_yr_example_records eq_refl eq_refl)).
Defined.

(** ** The combinations of criteria *)

Lemma subseq_nil_l {A : Type} (l : list A) : subseq [] l.
Proof. induction l; constructor; assumption. Qed.

Lemma subseq_length {A : Type} (c l : list A) :
  subseq c l -> List.length c <= List.length l.
Proof. induction 1; simpl; lia. Qed.

Lemma combinations_subseq {A : Type} (k : nat) (l c : list A) :
  In c (combinations k l) <-> subseq c l /\ List.length c = k.
Proof.
  revert k c. induction l as [| x l IH]; intros k c.
  - destruct k; simpl.
    + split.
      * intros [<- | []]. split; [constructor | reflexivity].
      * intros [_ H]. left. destruct c; [reflexivity | discriminate].
    + split; [intros [] |]. intros [H Hlen]. inversion H; subst. discriminate.
  - destruct k; cbn [combinations].
    + split.
      * intros [<- | []]. split; [apply subseq_nil_l | reflexivity].
      * intros [_ H]. left. destruct c; [reflexivity | discriminate].
    + rewrite in_app_iff, in_map_iff. split.
      * intros [(c' & <- & Hc') | Hc].
        -- apply IH in Hc'. destruct Hc' as [Hs Hlen]. split.
           ++ now constructor.
           ++ simpl. now rewrite Hlen.
        -- apply IH in Hc. destruct Hc as [Hs Hlen]. split; [now constructor | exact Hlen].
      * intros [Hs Hlen]. inversion Hs; subst.
        -- left. exists c0. split; [reflexivity |]. apply IH. split; [assumption |].
           simpl in Hlen. lia.
        -- right. apply IH. now split.
Qed.

(** X9.  The INT_CRIT values [generate_combinations] allows are exactly
    the concatenations of one or more of the ten criteria taken in their
    listed order, each at most once; there are 1023 of them. *)
Theorem generate_combinations_subsequences (s : string) :
  (In s generate_combinations
   <-> exists c, c <> [] /\ subseq c INT_CRIT_ELEMENTS /\ s = String.concat "" c)
  /\ List.length generate_combinations = 1023.
Proof.
  split; [| vm_compute; reflexivity].
  unfold generate_combinations. rewrite in_flat_map. split.
  - intros (k & Hk & Hs). apply in_seq in Hk. apply in_map_iff in Hs.
    destruct Hs as (c & <- & Hc). apply combinations_subseq in Hc.
    destruct Hc as [Hsub Hlen]. exists c. split; [| split; [exact Hsub | reflexivity]].
    intros ->. simpl in Hlen. lia.
  - intros (c & Hne & Hsub & ->). exists (List.length c). split.
    + apply in_seq. pose proof (subseq_length _ _ Hsub).
      destruct c; [now elim Hne | simpl in *; lia].
    + apply in_map. apply combinations_subseq. now split.
Qed.

(** ** NO_TAKE = 'All' *)

Lemma filter_filter {A : Type} (f g : A -> bool) (l : list A) :
  filter g (filter f l) = filter (fun x => f x && g x) l.
Proof.
  induction l as [| x l IH]; simpl; [reflexivity |].
  destruct (f x); simpl; [destruct (g x) |]; now rewrite IH.
Qed.

(** X10.  [invalid_no_take_no_tk_area_rep_m_area] returns the
    identifiers of the records whose NO_TAKE is 'All' and whose
    REP_M_AREA and NO_TK_AREA differ; a missing area differs from
    everything, so a record with NO_TAKE 'All' and a missing area is
    flagged, also when both areas are missing; no record with another
    NO_TAKE is flagged. *)
Theorem invalid_no_take_no_tk_area_rep_m_area_rows (df : DataFrame)
        (recs : list no_take_record) (return_pid : bool) :
  lookup "WDPA_PID" (columns df) = Some (map no_take_pid recs) ->
  lookup "NO_TAKE" (columns df) = Some (map no_take_value recs) ->
  lookup "REP_M_AREA" (columns df) = Some (map no_take_rep_m_area recs) ->
  lookup "NO_TK_AREA" (columns df) = Some (map no_take_no_tk_area recs) ->
  invalid_no_take_no_tk_area_rep_m_area return_pid df
  = (Ok (report (map no_take_pid (filter no_take_offends recs)) return_pid), df)
  /\ (forall r, no_take_value r = PyStr "All" ->
                isna (no_take_rep_m_area r) = true
                \/ isna (no_take_no_tk_area r) = true ->
                no_take_offends r = true)
  /\ (forall r, no_take_offends r = true -> no_take_value r = PyStr "All").
Proof.
  intros HP HN HR HT. split; [| split].
  - unfold invalid_no_take_no_tk_area_rep_m_area. run_check. cbv zeta.
    rewrite !lookup_boolean_index, HR, HT. cbn [option_map].
    cbv beta iota. rewrite !lookup_boolean_index, HP. cbn [option_map].
    rewrite map_map, !select_map, map2_map, select_map, filter_filter.
    reflexivity.
  - intros r Hall Hna. unfold no_take_offends, cmp_eq, cmp_ne.
    rewrite Hall. simpl.
    destruct Hna as [-> | ->]; [reflexivity | now rewrite orb_true_r].
  - intros r H. unfold no_take_offends in H. apply andb_true_iff in H.
    destruct H as [H _]. unfold cmp_eq in H.
    destruct (no_take_value r) as [| x | s]; simpl in H; try discriminate.
    + destruct (is_nan x); discriminate.
    + apply String.eqb_eq in H. now subst s.
Qed.

Lemma invalid_no_take_no_tk_area_rep_m_area_rows_witness :
  invalid_no_take_no_tk_area_rep_m_area true no_take_example
  = (Ok (OArray [PyStr "2"; PyStr "4"]), no_take_example).
Proof.
  exact (proj1 (invalid_no_take_no_tk_area_rep_m_area_rows no_take_example
                  no_take_example_records true eq_refl eq_refl eq_refl eq_refl)).
Defined.

(** ** One area against a larger one *)

Lemma size_threshold_finite :
  exists m e, Prim2SF 1.0001 = S754_finite false m e.
Proof. vm_compute. eauto. Qed.

Lemma mul_nan_r (x y : float) : is_nan y = true -> is_nan (x * y) = true.
Proof.
  rewrite !FloatFacts.is_nan_spec, FloatAxioms.mul_spec. intros ->.
  unfold SF64mul, SFmul. destruct (Prim2SF x); reflexivity.
Qed.

Lemma ltb_zero_l (z y : float) :
  (exists s, Prim2SF z = S754_zero s) -> (z <? y)%float = (0 <? y)%float.
Proof.
  intros [s Hz]. rewrite !FloatAxioms.ltb_spec, Hz.
  change (Prim2SF 0) with (S754_zero false).
  unfold SFltb. destruct (Prim2SF y); reflexivity.
Qed.

Lemma size_threshold_of_zero (l : float) :
  (l =? 0)%float = true -> exists s, Prim2SF (1.0001 * l) = S754_zero s.
Proof.
  intros H. apply FloatFacts.eqb_zero_spec in H. destruct H as [s Hl].
  destruct size_threshold_finite as (m & e & Ht).
  rewrite FloatAxioms.mul_spec, Hl, Ht. now exists (xorb false s).
Qed.

(** X11.  [area_invalid_size] returns the identifiers of the records
    whose supposedly smaller area is above 1.0001 times the larger one.
    A record with a NaN in either area is never flagged; against a
    larger area of zero every positive smaller area is flagged; and
    with a field name left empty the check raises, in either mode,
    leaving the frame as it was. *)
Theorem area_invalid_size_rows (df : DataFrame) (recs : list size_record)
        (field_small_area field_large_area : string) (return_pid : bool) :
  field_small_area <> "" -> field_large_area <> "" ->
  lookup "WDPA_PID" (columns df) = Some (map size_pid recs) ->
  lookup field_small_area (columns df) = Some (of_float64 (map small_area recs)) ->
  lookup field_large_area (columns df) = Some (of_float64 (map large_area recs)) ->
  area_invalid_size field_small_area field_large_area return_pid df
  = (Ok (report (map size_pid (filter oversize recs)) return_pid), df)
  /\ (forall r, is_nan (small_area r) = true \/ is_nan (large_area r) = true ->
                oversize r = false)
  /\ (forall r, (large_area r =? 0)%float = true ->
                oversize r = (0 <? small_area r)%float)
  /\ area_invalid_size "" field_large_area return_pid df = (Raise Exception, df)
  /\ area_invalid_size field_small_area "" return_pid df = (Raise Exception, df).
Proof.
  intros Hs Hl HP HS HL. split; [| split; [| split; [| split]]].
  - unfold area_invalid_size.
    apply String.eqb_neq in Hs, Hl. rewrite Hs, Hl. cbn [negb andb].
    run_check. rewrite scalar_arith_of_float64. cbv beta iota.
    rewrite series_compare_of_float64. cbv beta iota.
    rewrite lookup_boolean_index, HP. cbn [option_map].
    rewrite map_map, map2_map, select_map. reflexivity.
  - intros r [H | H]; unfold oversize.
    + now apply FloatFacts.nan_ltb_r.
    + apply FloatFacts.nan_ltb_l. now apply mul_nan_r.
  - intros r H. unfold oversize. apply ltb_zero_l.
    now apply size_threshold_of_zero.
  - reflexivity.
  - unfold area_invalid_size. now rewrite String.eqb_refl, andb_false_r.
Qed.

Lemma area_invalid_size_rows_witness :
  area_invalid_gis_m_area_gis_area true size_example
  = (Ok (OArray [PyStr "2"; PyStr "3"]), size_example).
Proof.
  refine (proj1 (area_invalid_size_rows size_example size_example_records
                   "GIS_M_AREA" "GIS_AREA" true _ _ eq_refl eq_refl eq_refl));
    discriminate.
Defined.

(** ** An area at or below a threshold *)

(** X12.  The checks of a zero marine area ([area_invalid_le_when], of
    which [area_invalid_rep_m_area_marine12] and
    [area_invalid_gis_m_area_marine12] are instances) return the
    identifiers of the records whose area is at or below the threshold
    and whose condition field holds one of the condition values.  A NaN
    area is never flagged, and where the condition values are texts a
    condition field held as a number never matches them. *)
Theorem area_invalid_le_when_rows (df : DataFrame) (recs : list zero_area_record)
        (field : string) (threshold : float) (condition_field : string)
        (condition_crit : list pyobj) (return_pid : bool) :
  lookup "WDPA_PID" (columns df) = Some (map zero_area_pid recs) ->
  lookup field (columns df) = Some (of_float64 (map zero_area recs)) ->
  lookup condition_field (columns df) = Some (map zero_area_cond recs) ->
  area_invalid_le_when field threshold condition_field condition_crit return_pid df
  = (Ok (report (map zero_area_pid
                     (filter (zero_area_offends threshold condition_crit) recs))
                return_pid), df)
  /\ (forall r, is_nan (zero_area r) = true ->
                zero_area_offends threshold condition_crit r = false)
  /\ (forall r x texts, zero_area_cond r = PyFloat x ->
                        zero_area_offends threshold (strs texts) r = false).
Proof.
  intros HP HF HC. split; [| split].
  - unfold area_invalid_le_when. run_check.
    rewrite series_le_scalar_of_float64. cbv beta iota.
    rewrite lookup_boolean_index, HP. cbn [option_map].
    unfold mask_and, isin. rewrite !map_map, map2_map, select_map. reflexivity.
  - intros r H. unfold zero_area_offends.
    now rewrite (FloatFacts.nan_leb_l _ _ H).
  - intros r x texts H. unfold zero_area_offends. rewrite H.
    rewrite mem_strs_not_text by discriminate. apply andb_false_r.
Qed.

Lemma area_invalid_le_when_rows_witness :
  area_invalid_rep_m_area_marine12 true zero_area_example
  = (Ok (OArray [PyStr "1"]), zero_area_example).
Proof.
  exact (proj1 (area_invalid_le_when_rows zero_area_example
                  zero_area_example_records "REP_M_AREA" 0 "MARINE"
                  [PyStr "1"; PyStr "2"] true eq_refl eq_refl eq_refl)).
Defined.

(** ** Membership, the condition negated *)

Lemma invalid_value_in_field_isnot_run (df : DataFrame) (recs : list member_record)
      (field : string) (allowed : list pyobj) (condition_field : string)
      (condition_crit : list pyobj) (return_pid : bool) :
  lookup "WDPA_PID" (columns df) = Some (map member_pid recs) ->
  lookup field (columns df) = Some (map member_value recs) ->
  (conditioned condition_field condition_crit = true ->
   lookup condition_field (columns df) = Some (map member_cond recs)) ->
  invalid_value_in_field_isnot field allowed condition_field condition_crit
                               return_pid df
  = (Ok (report (map member_pid
                     (filter (member_offends_isnot allowed condition_field
                                                   condition_crit) recs))
                return_pid), df).
Proof.
  intros HP HF HC. unfold invalid_value_in_field_isnot, member_offends_isnot.
  fold (conditioned condition_field condition_crit).
  destruct (conditioned condition_field condition_crit) eqn:Econd.
  - specialize (HC eq_refl). run_check.
    rewrite lookup_boolean_index, HP. cbn [option_map].
    unfold mask_and, mask_not, isin. rewrite !map_map, map2_map, select_map.
    reflexivity.
  - run_check.
    rewrite lookup_boolean_index, HP. cbn [option_map].
    unfold mask_not, isin. rewrite !map_map, select_map.
    erewrite filter_ext; [reflexivity |].
    intros r. simpl. now rewrite andb_true_r.
Qed.

(** X13.  With a condition in force, [invalid_value_in_field] and
    [invalid_value_in_field_isnot] split between them the records the
    check without a condition returns: a record whose value is outside
    the allowed set is returned by exactly one of the two, by the first
    when its condition field holds a condition value and by the second
    when it does not. *)
Theorem invalid_value_in_field_isnot_complement (df : DataFrame)
        (recs : list member_record) (field : string) (allowed : list pyobj)
        (condition_field : string) (condition_crit : list pyobj) :
  conditioned condition_field condition_crit = true ->
  lookup "WDPA_PID" (columns df) = Some (map member_pid recs) ->
  lookup field (columns df) = Some (map member_value recs) ->
  lookup condition_field (columns df) = Some (map member_cond recs) ->
  invalid_value_in_field field allowed condition_field condition_crit true df
  = (Ok (OArray (map member_pid
                     (filter (member_offends allowed condition_field condition_crit)
                             recs))), df)
  /\ invalid_value_in_field_isnot field allowed condition_field condition_crit true df
     = (Ok (OArray (map member_pid
                        (filter (member_offends_isnot allowed condition_field
                                                      condition_crit) recs))), df)
  /\ invalid_value_in_field field allowed "" [] true df
     = (Ok (OArray (map member_pid
                        (filter (fun r => negb (mem (member_value r) allowed))
                                recs))), df)
  /\ (forall r,
         negb (mem (member_value r) allowed)
         = xorb (member_offends allowed condition_field condition_crit r)
                (member_offends_isnot allowed condition_field condition_crit r))
  /\ (forall r,
         member_offends allowed condition_field condition_crit r = true ->
         mem (member_cond r) condition_crit = true)
  /\ (forall r,
         member_offends_isnot allowed condition_field condition_crit r = true ->
         mem (member_cond r) condition_crit = false).
Proof.
  intros Hcond HP HF HC. split; [| split; [| split; [| split; [| split]]]].
  - exact (invalid_value_in_field_run df recs field allowed condition_field
             condition_crit true HP HF (fun _ => HC)).
  - exact (invalid_value_in_field_isnot_run df recs field allowed condition_field
             condition_crit true HP HF (fun _ => HC)).
  - rewrite (invalid_value_in_field_run df recs field allowed "" [] true HP HF)
      by discriminate.
    unfold report. do 4 f_equal. apply filter_ext. intros r.
    unfold member_offends, conditioned. simpl. now rewrite andb_true_r.
  - intros r. unfold member_offends, member_offends_isnot. rewrite Hcond. simpl.
    destruct (mem (member_value r) allowed), (mem (member_cond r) condition_crit);
      reflexivity.
  - intros r. unfold member_offends. rewrite Hcond. simpl.
    intros H. now apply andb_true_iff in H.
  - intros r. unfold member_offends_isnot. rewrite Hcond. simpl.
    intros H. apply andb_true_iff in H. now apply negb_true_iff.
Qed.

Lemma invalid_value_in_field_isnot_complement_witness :
  invalid_value_in_field_isnot "DESIG_TYPE" (strs ["National"]) "MARINE"
                               (strs ["0"]) true membership_example
  = (Ok (OArray [PyStr "2"; PyStr "3"]), membership_example).
Proof.
  exact (proj1 (proj2 (invalid_value_in_field_isnot_complement membership_example
                         membership_example_records "DESIG_TYPE" (strs ["National"])
                         "MARINE" (strs ["0"]) eq_refl eq_refl eq_refl eq_refl))).
Defined.

(** ** The marine classification, run again and run before other checks *)

Lemma assign_present (name : string) (s : Series) (cols : list (string * Series)) :
  lookup name cols = Some s -> assign name s cols = cols.
Proof.
  induction cols as [| [n c] cols IH]; simpl; [discriminate |].
  destruct (String.eqb n name) eqn:E.
  - intros H. injection H as ->. reflexivity.
  - intros H. now rewrite IH.
Qed.

Lemma with_marine_columns_again (df : DataFrame) (props : list float) :
  with_marine_columns (with_marine_columns df props) props
  = with_marine_columns df props.
Proof.
  unfold with_marine_columns. cbn [index_size columns]. f_equal.
  rewrite (assign_present "marine_GIS_proportion").
  - apply assign_present, lookup_assign_same.
  - rewrite lookup_assign_other by reflexivity. apply lookup_assign_same.
Qed.

Lemma lookup_with_marine_columns (df : DataFrame) (props : list float)
      (name : string) :
  name <> "marine_GIS_proportion" -> name <> "marine_GIS_value" ->
  lookup name (columns (with_marine_columns df props)) = lookup name (columns df).
Proof.
  intros H1 H2. unfold with_marine_columns. cbn [columns].
  rewrite !lookup_assign_other; [reflexivity | |];
    apply String.eqb_neq; congruence.
Qed.

(** X14.  Running [area_invalid_marine] a second time, on the frame the
    first run left, gives the same records and leaves that frame as it
    is: the two derived columns are overwritten with the values they
    hold. *)
Theorem area_invalid_marine_again (df : DataFrame) (recs : list marine_record)
        (first_mode second_mode : bool) :
  index_size df = List.length recs ->
  lookup "WDPA_PID" (columns df) = Some (map marine_pid recs) ->
  lookup "GIS_M_AREA" (columns df) = Some (of_float64 (map gis_m_area recs)) ->
  lookup "GIS_AREA" (columns df) = Some (of_float64 (map gis_area recs)) ->
  lookup "MARINE" (columns df) = Some (map marine recs) ->
  area_invalid_marine second_mode (snd (area_invalid_marine first_mode df))
  = (Ok (report (map marine_pid (filter marine_mismatch recs)) second_mode),
     snd (area_invalid_marine first_mode df)).
Proof.
  intros Hn HP HM HG HMar.
  rewrite (area_invalid_marine_run df recs first_mode Hn HP HM HG HMar).
  cbn [snd].
  set (props := map (fun r => (gis_m_area r / gis_area r)%float) recs).
  rewrite (area_invalid_marine_run (with_marine_columns df props) recs second_mode).
  - fold props. now rewrite with_marine_columns_again.
  - exact Hn.
  - rewrite lookup_with_marine_columns by discriminate. exact HP.
  - rewrite lookup_with_marine_columns by discriminate. exact HM.
  - rewrite lookup_with_marine_columns by discriminate. exact HG.
  - rewrite lookup_with_marine_columns by discriminate. exact HMar.
Qed.

Lemma area_invalid_marine_again_witness :
  area_invalid_marine false (snd (area_invalid_marine true marine_example))
  = (Ok (OBool true), snd (area_invalid_marine true marine_example)).
Proof.
  exact (area_invalid_marine_again marine_example marine_example_records true false
           eq_refl eq_refl eq_refl eq_refl eq_refl).
Defined.

(** X15.  After [area_invalid_marine] has run on a frame, the
    forbidden-character checks no longer see the records whose marine
    proportion is NaN: the derived column holds a missing value for them,
    and [forbidden_character] drops every row with a missing value
    before it looks for characters. *)
Theorem area_invalid_marine_hides_rows (df : DataFrame) (recs : list marine_record)
        (check_field : string) (col : Series) (return_pid : bool) :
  index_size df = List.length recs ->
  lookup "WDPA_PID" (columns df) = Some (map marine_pid recs) ->
  lookup "GIS_M_AREA" (columns df) = Some (of_float64 (map gis_m_area recs)) ->
  lookup "GIS_AREA" (columns df) = Some (of_float64 (map gis_area recs)) ->
  lookup "MARINE" (columns df) = Some (map marine recs) ->
  lookup check_field (columns df) = Some col ->
  check_field <> "marine_GIS_proportion" -> check_field <> "marine_GIS_value" ->
  forallb text_or_missing col = true ->
  holds_text col = true ->
  List.length col = List.length recs ->
  forbidden_character check_field true (snd (area_invalid_marine return_pid df))
  = (Ok (OArray
           (select (map2 (forbidden_row (snd (area_invalid_marine return_pid df)))
                         (seq 0 (index_size df)) col)
                   (map marine_pid recs))),
     snd (area_invalid_marine return_pid df))
  /\ (forall i r v,
         nth_error recs i = Some r ->
         is_nan (gis_m_area r / gis_area r) = true ->
         forbidden_row (snd (area_invalid_marine return_pid df)) i v = false).
Proof.
  intros Hn HP HM HG HMar Hcol Hc1 Hc2 Htext Hobject Hrows.
  rewrite (area_invalid_marine_run df recs return_pid Hn HP HM HG HMar).
  cbn [snd].
  set (props := map (fun r => (gis_m_area r / gis_area r)%float) recs).
  split.
  - rewrite (forbidden_character_run (with_marine_columns df props) check_field
               col (map marine_pid recs) true).
    + reflexivity.
    + now rewrite lookup_with_marine_columns.
    + rewrite lookup_with_marine_columns by discriminate. exact HP.
    + exact Htext.
    + exact Hobject.
  - intros i r v Hi Hnan. unfold forbidden_row.
    replace (row_has_na (with_marine_columns df props) i) with true;
      [reflexivity |].
    symmetry. unfold row_has_na. apply existsb_exists.
    exists ("marine_GIS_proportion", of_float64 props). split.
    + apply lookup_In. unfold with_marine_columns. cbn [columns].
      rewrite lookup_assign_other by reflexivity. apply lookup_assign_same.
    + cbn [snd]. unfold of_float64, props. rewrite map_map.
      rewrite (map_nth_error _ i recs Hi). exact Hnan.
Qed.

Lemma area_invalid_marine_hides_rows_witness :
  fst (forbidden_character "NAME" true marine_named_example)
  = Ok (OArray [PyStr "1"; PyStr "2"])
  /\ fst (forbidden_character "NAME" true
            (snd (area_invalid_marine true marine_named_example)))
     = Ok (OArray [PyStr "2"]).
Proof.
  split; [reflexivity |].
  exact (f_equal fst
           (proj1 (area_invalid_marine_hides_rows marine_named_example
                     marine_named_example_records "NAME" _ true
                     eq_refl eq_refl eq_refl eq_refl eq_refl eq_refl
                     ltac:(discriminate) ltac:(discriminate)
                     eq_refl eq_refl eq_refl))).
Defined.

(** ** The four statistical checks are one rule *)

Lemma SFadd_comm (prec emax : Z) (x y : spec_float) :
  SFadd prec emax x y = SFadd prec emax y x.
Proof.
  unfold SFadd.
  destruct x as [sx | sx | | sx mx ex], y as [sy | sy | | sy my ey];
    try reflexivity; try (destruct sx, sy; reflexivity).
  rewrite (Z.min_comm ey ex), Z.add_comm. reflexivity.
Qed.

Lemma float_add_comm (x y : float) : (x + y = y + x)%float.
Proof.
  apply FloatAxioms.Prim2SF_inj. rewrite !FloatAxioms.add_spec.
  apply SFadd_comm.
Qed.

Lemma relative_size_of_roles (df : DataFrame) (recs : list area_record)
      (numerator denominator : string) :
  lookup denominator (columns df) = Some (of_float64 (map area_A recs)) ->
  lookup numerator (columns df) = Some (of_float64 (map area_B recs)) ->
  relative_size_of denominator numerator denominator df
  = (Ok (map (fun r => ratio (area_A r) (area_B r)) recs), df)
  /\ relative_size_of numerator denominator denominator df
     = (Ok (map (fun r => ratio (area_A r) (area_B r)) recs), df).
Proof.
  intros HA HB. unfold relative_size_of. split; run_check;
    rewrite series_binop_of_float64; cbv beta iota; rewrite ?HA, ?HB;
    cbv beta iota; rewrite series_binop_of_float64; rewrite !map2_map.
  - reflexivity.
  - do 2 f_equal. apply map_ext. intros r. unfold ratio.
    now rewrite float_add_comm.
Qed.

(** X16.  The four statistical area checks are one rule.  With A the
    area that divides and B the other one, a check whose ratio is written
    A + B over A and a check whose ratio is written B + A over A return
    the same identifiers, those of the records whose ratio exceeds the
    threshold and whose difference B - A exceeds 50 in absolute value:
    [area_invalid_too_large_rep] is [area_invalid_too_large_gis] with
    REP_AREA and GIS_AREA exchanged, and the two marine checks are the
    same rule over REP_M_AREA and GIS_M_AREA. *)
Theorem area_invalid_too_large_roles (df : DataFrame) (recs : list area_record)
        (numerator denominator : string) (return_pid : bool) :
  lookup "WDPA_PID" (columns df) = Some (map area_pid recs) ->
  lookup denominator (columns df) = Some (of_float64 (map area_A recs)) ->
  lookup numerator (columns df) = Some (of_float64 (map area_B recs)) ->
  area_invalid_too_large denominator numerator denominator numerator denominator
                         return_pid df
  = (Ok (report (map area_pid (filter (spec_flagged (spec_max_ratio recs)) recs))
                return_pid), df)
  /\ area_invalid_too_large numerator denominator denominator numerator denominator
                            return_pid df
     = (Ok (report (map area_pid (filter (spec_flagged (spec_max_ratio recs)) recs))
                   return_pid), df).
Proof.
  intros HP HA HB.
  destruct (relative_size_of_roles df recs numerator denominator HA HB)
    as [Hstraight Hswapped].
  split; unfold area_invalid_too_large.
  - unfold bind at 1. rewrite Hstraight.
    unfold bind at 1. rewrite Hstraight.
    rewrite max_relative_size_spec. run_check.
    rewrite ?HA, ?HB, series_binop_of_float64.
    cbv beta iota. rewrite lookup_boolean_index, HP. cbn [option_map].
    unfold mask_and. rewrite map2_map, !map_map, map2_map.
    rewrite select_map. reflexivity.
  - unfold bind at 1. rewrite Hswapped.
    unfold bind at 1. rewrite Hswapped.
    rewrite max_relative_size_spec. run_check.
    rewrite ?HA, ?HB, series_binop_of_float64.
    cbv beta iota. rewrite lookup_boolean_index, HP. cbn [option_map].
    unfold mask_and. rewrite map2_map, !map_map, map2_map.
    rewrite select_map. reflexivity.
Qed.

Lemma area_invalid_too_large_roles_witness :
  area_invalid_too_large_rep true reported_too_large
  = (Ok (OArray [PyStr "3"]), reported_too_large).
Proof.
  exact (proj2 (area_invalid_too_large_roles reported_too_large
                  reported_too_large_records "REP_AREA" "GIS_AREA" true
                  eq_refl eq_refl eq_refl)).
Defined.

(** ** Missing values *)

(** X17.  [nan_present] returns the identifiers of the records whose
    checked field is [None] or NaN, and raises KeyError, leaving the frame
    as it was, when the field is not a column.  The records it returns
    are also returned by every unconditioned membership check of the same
    field whose allowed values are texts: a missing value is in no such
    list. *)
Theorem nan_present_rows (df : DataFrame) (recs : list member_record)
        (check_field : string) (return_pid : bool) :
  lookup "WDPA_PID" (columns df) = Some (map member_pid recs) ->
  lookup check_field (columns df) = Some (map member_value recs) ->
  nan_present check_field return_pid df
  = (Ok (report (map member_pid (filter (fun r => isna (member_value r)) recs))
                return_pid), df)
  /\ (forall texts r, isna (member_value r) = true ->
                      member_offends (strs texts) "" [] r = true)
  /\ (forall other frame, lookup other (columns frame) = None ->
                          nan_present other return_pid frame = (Raise KeyError, frame)).
Proof.
  intros HP HF. split; [| split].
  - unfold nan_present. run_check.
    rewrite lookup_boolean_index, HP. cbn [option_map].
    rewrite map_map, select_map. reflexivity.
  - intros texts r H. unfold member_offends, conditioned. simpl.
    rewrite andb_true_r. apply negb_true_iff. apply mem_strs_not_text.
    intros s E. rewrite E in H. discriminate.
  - intros other frame H. unfold nan_present, bind, getitem, frame_getitem.
    now rewrite H.
Qed.

Lemma nan_present_rows_witness :
  nan_present "DESIG_TYPE" true membership_example
  = (Ok (OArray [PyStr "3"]), membership_example).
Proof.
  exact (proj1 (nan_present_rows membership_example membership_example_records
                  "DESIG_TYPE" true eq_refl eq_refl)).
Defined.

(** ** The two checks of the other designations *)

(** X18.  The two checks written out by hand,
    [invalid_int_crit_desig_eng_other] and
    [invalid_desig_eng_iucn_cat_other], do what
    [invalid_value_in_field_isnot] does with a condition in force: same
    answer, same exception, same frame. *)
Theorem invalid_other_negated_condition (field : string) (allowed : list pyobj)
        (condition_field : string) (condition_crit : list pyobj)
        (return_pid : bool) (df : DataFrame) :
  conditioned condition_field condition_crit = true ->
  invalid_other field allowed condition_field condition_crit return_pid df
  = invalid_value_in_field_isnot field allowed condition_field condition_crit
                                 return_pid df.
Proof.
  intros Hcond. unfold invalid_other, invalid_value_in_field_isnot.
  fold (conditioned condition_field condition_crit). rewrite Hcond.
  unfold bind, getitem.
  destruct (frame_getitem df field) as [col | e]; [| reflexivity].
  destruct (frame_getitem df condition_field) as [cond | e]; reflexivity.
Qed.

Lemma invalid_other_negated_condition_witness :
  invalid_int_crit_desig_eng_other true membership_example
  = invalid_value_in_field_isnot
      "DESIG_ENG"
      [PyStr "Ramsar Site, Wetland of International Importance";
       PyStr "World Heritage Site (natural or mixed)"]
      "INT_CRIT" [PyStr "Not Applicable"] true membership_example.
Proof.
  exact (invalid_other_negated_condition
           "DESIG_ENG"
           [PyStr "Ramsar Site, Wetland of International Importance";
            PyStr "World Heritage Site (natural or mixed)"]
           "INT_CRIT" [PyStr "Not Applicable"] true membership_example eq_refl).
Defined.

(** ** A frame without columns *)

(** X19.  On a frame that has no columns every check of the catalog
    raises KeyError, in either mode, and leaves the frame as it was. *)
Theorem catalog_raises_without_columns (codes : list string) (year : nat)
        (df : DataFrame) (name : string) (func : bool -> Py outcome)
        (return_pid : bool) :
  columns df = [] ->
  In (name, func) (poly_checks codes year) ->
  func return_pid df = (Raise KeyError, df).
Proof.
  intros Hcols Hin. destruct df as [n cols]. simpl in Hcols. subst cols.
  unfold poly_checks, core_checks, area_checks in Hin. cbn [In app] in Hin.
  repeat (destruct Hin as [Hin | Hin];
          [injection Hin as <- <-; destruct return_pid; reflexivity |]).
  destruct Hin.
Qed.

Lemma catalog_raises_without_columns_witness :
  area_invalid_marine true (mkDataFrame 0 []) = (Raise KeyError, mkDataFrame 0 []).
Proof.
  refine (catalog_raises_without_columns [] 2019 (mkDataFrame 0 [])
            "ivd_marine_designation" area_invalid_marine true eq_refl _).
  apply in_or_app. right. do 8 right. left. reflexivity.
Defined.
